(** * Cart order validation ([validateOrder] of cart.rest.service.ts)

    A shallow embedding of the checkout validation of the cart service:
    the per-article fan-out to the catalog ([async.map] over
    [req.cart.articles]) and the final callback that joins the results
    back to the cart lines and fills [req.validation].

    JavaScript behaviour that the callback depends on is written out:
    a property read on [null] or [undefined] raises a [TypeError], [==]
    between [undefined] and a string is false, [undefined] is falsy and
    [undefined < n] is false. *)

From Stdlib Require Import ZArith.
From stdpp Require Import base decidable list strings.

Local Open Scope Z_scope.
Local Open Scope string_scope.

(** ** Data of cart.schema.ts *)

Module Schema.

(** Modelled from the spec: the declaration of [ICartArticle] lives in
    cart.schema.ts, which is not part of the sources at hand.  The fields
    are the ones cart.rest.service.ts reads or writes: [articleId] and
    [quantity] (a line item, section 3 of the specification) and the
    [validated] flag tested by [findCurrentCart]. *)
Record ICartArticle : Type := {
  articleId : string;
  quantity : Z;
  validated : bool
}.

(** Modelled from the spec: the declaration of [ICart] lives in
    cart.schema.ts, which is not part of the sources at hand.  The fields
    are the ones cart.rest.service.ts touches: [userId] and [enabled]
    ([findCurrentCart]), [orderId] ([postOrder]) and [articles]. *)
Record ICart : Type := {
  userId : string;
  orderId : option string;
  enabled : bool;
  articles : list ICartArticle
}.

End Schema.

Import Schema.

(** ** Data of cart.rest.service.ts *)

Record CartValidationItem : Type := {
  item_articleId : string;
  message : string
}.

Record ICartValidation : Type := {
  errors : list CartValidationItem;
  warnings : list CartValidationItem
}.

(** [interface Article].  Every field may be [undefined] (here [None]):
    the value the [catch] branch passes on is [{ "_id": undefined }], an
    object without [enabled] or [stock].  [name] and [price] are never read
    by [validateOrder] and are left out. *)
Module Article.
Record t : Type := {
  _id : option string;
  stock : option Z;
  enabled : option bool
}.
End Article.

(** What [data.result] can be: the response body is typed [any] and cast
    to [Article] without a check. *)
Inductive JsValue : Type :=
  | JsUndefined
  | JsNull
  | JsObject (o : Article.t).

(** How the promise returned by [restClient.get] settles: fulfilled with a
    response whose [result] is the given value, or rejected. *)
Inductive Settled : Type :=
  | Fulfilled (result : JsValue)
  | Rejected.

(** The catalog seen through [RestClient.get]: resource path and
    [Authorization] header to the way the call settles. *)
Definition RestClient : Type := string → string → Settled.

(** [req.user], of which only the token is used here. *)
Record ISession : Type := {
  token : string;
  session_userId : string
}.

(** [IValidationResult]: the request with its session, the cart loaded by
    [findCurrentCart] and the [validation] slot, [undefined] until
    [validateOrder] writes it. *)
Record IValidationResult : Type := {
  user : ISession;
  cart : ICart;
  validation : option ICartValidation
}.

(** ** Completions: a value, or a thrown [TypeError] *)

Inductive Completion (A : Type) : Type :=
  | Normal (a : A)
  | Throw.
Arguments Normal {A} a.
Arguments Throw {A}.

#[global] Instance Completion_bind : MBind Completion :=
  fun A B (k : A → Completion B) (c : Completion A) =>
    match c with
    | Normal a => k a
    | Throw => Throw
    end.

#[global] Instance Completion_ret : MRet Completion := fun A a => Normal a.

(** [Array.prototype.find]: the first element the predicate accepts,
    [undefined] ([None]) when there is none; an exception of the predicate
    ends the search. *)
Fixpoint find {A} (p : A → Completion bool) (l : list A) : Completion (option A) :=
  match l with
  | [] => Normal None
  | x :: l' =>
      b ← p x;
      if b : bool then Normal (Some x) else find p l'
  end.

(** [Array.prototype.map] with a callback that may throw. *)
Fixpoint mapArray {A B} (f : A → Completion B) (l : list A) : Completion (list B) :=
  match l with
  | [] => Normal []
  | x :: l' =>
      y ← f x;
      ys ← mapArray f l';
      mret (y :: ys)
  end.

(** [Array.prototype.forEach] with a callback that updates a state. *)
Definition forEach {A S} (f : A → S → S) (l : list A) (s : S) : S :=
  fold_left (fun s x => f x s) l s.

(** [Array.prototype.push]. *)
Definition push {A} (arr : list A) (x : A) : list A := arr ++ [x].

(** ** JavaScript operators used by the callback *)

(** [x == s] for a string [s]: [undefined == s] is false. *)
Definition looseEq (x : option string) (s : string) : bool :=
  match x with
  | Some t => bool_decide (t = s)
  | None => false
  end.

(** [element._id]: reading a property of [null] or [undefined] throws. *)
Definition get_id (element : JsValue) : Completion (option string) :=
  match element with
  | JsObject o => Normal (Article._id o)
  | JsUndefined | JsNull => Throw
  end.

(** Truthiness of [element.result]: an object, or nothing usable. *)
Definition truthyObject (v : option JsValue) : option Article.t :=
  match v with
  | Some (JsObject o) => Some o
  | Some JsUndefined | Some JsNull | None => None
  end.

(** Truthiness of [result.enabled]. *)
Definition truthy (b : option bool) : bool :=
  match b with
  | Some b => b
  | None => false
  end.

(** [result.stock < quantity]: a comparison with [undefined] is false. *)
Definition lessThan (x : option Z) (y : Z) : bool :=
  match x with
  | Some n => bool_decide (n < y)
  | None => false
  end.

(** ** [validateOrder] *)

(** The iteratee given to [async.map]: one GET per cart line; a rejected
    promise becomes the object [{ "_id": undefined }]. *)
Definition sentinel : Article.t :=
  {| Article._id := None; Article.stock := None; Article.enabled := None |}.

Definition resource (article : ICartArticle) : string :=
  "/articles/" +:+ articleId article.

Definition iteratee (restClient : RestClient) (req : IValidationResult)
    (article : ICartArticle) : JsValue :=
  match restClient (resource article) (token (user req)) with
  | Fulfilled result => result
  | Rejected => JsObject sentinel
  end.

(** [async.map] hands the final callback the results in the order of the
    collection, whatever the order in which the calls settle; no iteratee
    reports an error, so the callback always runs with the full array. *)
Definition fanOut (restClient : RestClient) (req : IValidationResult) : list JsValue :=
  map (iteratee restClient req) (articles (cart req)).

(** The object built by [req.cart.articles.map]. *)
Record Joined : Type := {
  article : ICartArticle;
  result : option JsValue
}.

(** The predicate given to [find]:
    [element => element._id == article.articleId]. *)
Definition sameId (article : ICartArticle) (element : JsValue) : Completion bool :=
  i ← get_id element;
  mret (looseEq i (articleId article)).

Definition join (results : list JsValue) (article : ICartArticle) : Completion Joined :=
  r ← find (sameId article) results;
  mret {| article := article; result := r |}.

(** The body of the [forEach]. *)
Definition visit (element : Joined) (v : ICartValidation) : ICartValidation :=
  match truthyObject (result element) with
  | None =>
      {| errors := push (errors v)
                     {| item_articleId := articleId (article element);
                        message := "No se encuentra" |};
         warnings := warnings v |}
  | Some r =>
      if negb (truthy (Article.enabled r)) then
        {| errors := push (errors v)
                       {| item_articleId := articleId (article element);
                          message := "Articulo inválido" |};
           warnings := warnings v |}
      else if lessThan (Article.stock r) (quantity (article element)) then
        {| errors := errors v;
           warnings := push (warnings v)
                         {| item_articleId := articleId (article element);
                            message := "Insuficiente stock" |} |}
      else v
  end.

(** How the final callback ends: it reaches [next()], or a [TypeError]
    escapes from it and [next] is never called. *)
Inductive Signal : Type :=
  | CalledNext
  | TypeError.

Definition setValidation (req : IValidationResult) (v : ICartValidation) : IValidationResult :=
  {| user := user req; cart := cart req; validation := Some v |}.

Definition emptyValidation : ICartValidation := {| errors := []; warnings := [] |}.

(** The final callback of [async.map].  [req.validation] is assigned
    first; the [map] that joins runs to its end before the [forEach]
    starts, so an exception leaves the fresh empty report in place. *)
Definition onResults (results : list JsValue) (req : IValidationResult)
    : IValidationResult * Signal :=
  let req1 := setValidation req emptyValidation in
  match mapArray (join results) (articles (cart req1)) with
  | Throw => (req1, TypeError)
  | Normal joined => (setValidation req1 (forEach visit joined emptyValidation), CalledNext)
  end.

Definition validateOrder (restClient : RestClient) (req : IValidationResult)
    : IValidationResult * Signal :=
  onResults (fanOut restClient req) req.

(** ** The decision of section 4.2, line by line *)

Inductive LineValidationOutcome : Type :=
  | Error (articleId message : string)
  | Warning (articleId message : string)
  | Ok.

(** The four rules of section 4.2 in their order of precedence, for one
    line item and the snapshot joined to it ([None] when there is none).
    An absent [enabled] counts as false and an absent [stock] is not below
    any quantity, as the JavaScript operators have it. *)
Definition classify (snapshot : option Article.t) (line : ICartArticle)
    : LineValidationOutcome :=
  match snapshot with
  | None => Error (articleId line) "No se encuentra"
  | Some s =>
      if negb (truthy (Article.enabled s)) then Error (articleId line) "Articulo inválido"
      else if lessThan (Article.stock s) (quantity line)
           then Warning (articleId line) "Insuficiente stock"
           else Ok
  end.

Definition errorOf (o : LineValidationOutcome) : list CartValidationItem :=
  match o with
  | Error a m => [ {| item_articleId := a; message := m |} ]
  | Warning _ _ | Ok => []
  end.

Definition warningOf (o : LineValidationOutcome) : list CartValidationItem :=
  match o with
  | Warning a m => [ {| item_articleId := a; message := m |} ]
  | Error _ _ | Ok => []
  end.

(** The join of section 4.2: the first snapshot of the results whose id is
    the one asked for. *)
Fixpoint firstMatch (results : list JsValue) (id : string) : option Article.t :=
  match results with
  | [] => None
  | JsObject o :: rest =>
      if decide (Article._id o = Some id) then Some o else firstMatch rest id
  | _ :: rest => firstMatch rest id
  end.

Definition outcomeOf (results : list JsValue) (line : ICartArticle) : LineValidationOutcome :=
  classify (firstMatch results (articleId line)) line.

(** The report section 4.2 describes: the outcomes of the lines, in cart
    order, split over the two sequences. *)
Definition reportOf (results : list JsValue) (lines : list ICartArticle) : ICartValidation :=
  {| errors := flat_map (fun line => errorOf (outcomeOf results line)) lines;
     warnings := flat_map (fun line => warningOf (outcomeOf results line)) lines |}.

(** ** Predicates on the inputs *)

Definition isObject (v : JsValue) : Prop :=
  match v with
  | JsObject _ => True
  | JsUndefined | JsNull => False
  end.

(** Every lookup made for the cart is rejected or fulfilled with an
    object. *)
Definition answersObjects (restClient : RestClient) (req : IValidationResult) : Prop :=
  Forall (fun line =>
            match restClient (resource line) (token (user req)) with
            | Fulfilled v => isObject v
            | Rejected => True
            end)
         (articles (cart req)).

(** The results of the lookups that were fulfilled, in cart order; the
    rejected ones are left out. *)
Definition fulfilled (restClient : RestClient) (req : IValidationResult) : list JsValue :=
  flat_map (fun line =>
              match restClient (resource line) (token (user req)) with
              | Fulfilled v => [v]
              | Rejected => []
              end)
           (articles (cart req)).

(** The ids of the entries of a sequence of the report. *)
Definition ids (items : list CartValidationItem) : list string :=
  map item_articleId items.

(** The entries of a sequence of the report that name a given article. *)
Definition about (id : string) (items : list CartValidationItem) : list CartValidationItem :=
  filter (λ item, item_articleId item = id) items.

(** No two lines of the cart carry the same article (section 3). *)
Definition uniqueArticles (c : ICart) : Prop :=
  NoDup (map articleId (articles c)).

(** ** Sample carts and catalogs *)

Definition line (id : string) (q : Z) : ICartArticle :=
  {| articleId := id; quantity := q; validated := true |}.

Definition request (lines : list ICartArticle) : IValidationResult :=
  {| user := {| token := "Bearer 5f2a"; session_userId := "u1" |};
     cart := {| userId := "u1"; orderId := None; enabled := true; articles := lines |};
     validation := None |}.

Definition snapshot (id : string) (stock : Z) (enabled : bool) : JsValue :=
  JsObject {| Article._id := Some id;
              Article.stock := Some stock;
              Article.enabled := Some enabled |}.

(** A catalog given by a table from article ids to the way the GET for
    that article settles; a GET for any other resource is rejected. *)
Fixpoint catalogOf (table : list (string * Settled)) : RestClient :=
  fun path authorization =>
    match table with
    | [] => Rejected
    | (id, answer) :: rest =>
        if decide (path = "/articles/" +:+ id) then answer
        else catalogOf rest path authorization
    end.

Definition entry (id message : string) : CartValidationItem :=
  {| item_articleId := id; message := message |}.

(** The scenario of section 8 of the specification. *)
Definition scenarioCart : list ICartArticle := [line "A" 2; line "B" 1; line "C" 5].

Definition scenarioCatalog : RestClient :=
  catalogOf [("A", Fulfilled (snapshot "A" 10 true));
             ("B", Rejected);
             ("C", Fulfilled (snapshot "C" 1 true))].

(** The catalog of the scenario, except that the GET for article B is
    fulfilled with a response that carries [result: null]. *)
Definition nullCatalog : RestClient :=
  catalogOf [("A", Fulfilled (snapshot "A" 10 true));
             ("B", Fulfilled JsNull);
             ("C", Fulfilled (snapshot "C" 1 true))].

(** A catalog whose answer for article B is a snapshot of article A, while
    the GET for A itself fails. *)
Definition crossedCatalog : RestClient :=
  catalogOf [("A", Rejected);
             ("B", Fulfilled (snapshot "A" 10 true))].

(** ** The other handlers of cart.rest.service.ts *)

(** A cart as Mongoose hands it over: the fields of [ICart] and the
    document's [_id]. *)
Module Document.
Record t : Type := {
  _id : string;
  fields : ICart
}.
End Document.

(** [ICartRequest] before and after [findCurrentCart]: [req.cart] is
    [undefined] ([None]) until the handler has assigned it. *)
Module Request.
Record t : Type := {
  user : ISession;
  cart : option Document.t
}.
End Request.

(** The [err] a Mongoose callback may receive; its content is passed on
    to [error.handleError] untouched. *)
Definition DbError : Type := string.

(** What [Cart.findOne] gives its callback: [err], or the document found
    ([null] when no document matches). *)
Inductive QueryResult : Type :=
  | QueryError (err : DbError)
  | QueryDone (found : option Document.t).

(** What a handler sends to the client.  [error.handleError] belongs to
    utils/error and is kept as the call it is. *)
Inductive Reply : Type :=
  | json_cart (c : ICart)
  | json_validation (v : option ICartValidation)
  | handleError (err : DbError).

(** How a handler hands over: [next()], or a reply. *)
Inductive Flow : Type :=
  | Next
  | Replied (r : Reply).

(** What a handler does outside the request: a document it asks to save, a
    message it posts through [rabbit.sendArticleValidation]. *)
Inductive Event : Type :=
  | SaveCart (c : Document.t)
  | ArticleValidation (cartId articleId : string).

(** The body of the [forEach] of [findCurrentCart]. *)
Definition notify (c : Document.t) (article : ICartArticle) (log : list Event) : list Event :=
  if negb (validated article)
  then push log (ArticleValidation (Document._id c) (articleId article))
  else log.

Definition setUserId (c : Document.t) (id : string) : Document.t :=
  {| Document._id := Document._id c;
     Document.fields :=
       {| userId := id;
          orderId := orderId (Document.fields c);
          Schema.enabled := Schema.enabled (Document.fields c);
          articles := articles (Document.fields c) |} |}.

(** [findCurrentCart].  [findOne] is [Cart.findOne] seen as a function of
    the filter ([userId], [enabled]); [newCart] is what [new Cart()]
    builds; [save] tells whether saving a document fails.  The result is
    the request, the events in the order they happen, and the hand-over. *)
Definition findCurrentCart (findOne : string → bool → QueryResult)
    (newCart : Document.t) (save : Document.t → option DbError)
    (req : Request.t) : Request.t * list Event * Flow :=
  match findOne (session_userId (Request.user req)) true with
  | QueryError err => (req, [], Replied (handleError err))
  | QueryDone None =>
      let c := setUserId newCart (session_userId (Request.user req)) in
      let req1 := {| Request.user := Request.user req; Request.cart := Some c |} in
      match save c with
      | Some err => (req1, [SaveCart c], Replied (handleError err))
      | None => (req1, [SaveCart c], Next)
      end
  | QueryDone (Some c) =>
      ({| Request.user := Request.user req; Request.cart := Some c |},
       forEach (notify c) (articles (Document.fields c)) [],
       Next)
  end.

(** [validateToCheckout]: [res.json(req.validation)]. *)
Definition validateToCheckout (req : IValidationResult) : Reply :=
  json_validation (validation req).

(** [postOrder], on the request type [validateOrder] leaves
    ([IValidationResult] extends [ICartRequest]).  The cart object is
    changed in place before it is saved, so the request holds the changed
    cart whether or not the save succeeds. *)
Definition postOrder (save : ICart → option DbError) (req : IValidationResult)
    : IValidationResult * Reply :=
  let c := {| userId := userId (cart req);
              orderId := Some "orderID";
              Schema.enabled := false;
              articles := articles (cart req) |} in
  let req1 := {| user := user req; cart := c; validation := validation req |} in
  match save c with
  | Some err => (req1, handleError err)
  | None => (req1, json_cart c)
  end.

(** A collection of carts queried the way [findCurrentCart] does: the
    first document with the given [userId] and [enabled] flag. *)
Definition storeOf (docs : list Document.t) : string → bool → QueryResult :=
  fun uid flag =>
    QueryDone
      (snd <$> list_find
         (λ c, userId (Document.fields c) = uid
               ∧ Schema.enabled (Document.fields c) = flag)
         docs).

(** ** Catalogs that answer what was asked *)

(** Every object the catalog returns for one of the given lines carries
    the id of the article that was asked for. *)
Definition echoesOn (restClient : RestClient) (req : IValidationResult)
    (lines : list ICartArticle) : Prop :=
  ∀ line o,
    line ∈ lines →
    restClient (resource line) (token (user req)) = Fulfilled (JsObject o) →
    Article._id o = Some (articleId line).

Definition echoesId (restClient : RestClient) (req : IValidationResult) : Prop :=
  echoesOn restClient req (articles (cart req)).

(** The snapshot the lookup made for a line itself returned, if any. *)
Definition ownSnapshot (restClient : RestClient) (req : IValidationResult)
    (line : ICartArticle) : option Article.t :=
  match restClient (resource line) (token (user req)) with
  | Fulfilled (JsObject o) => Some o
  | Fulfilled JsUndefined | Fulfilled JsNull | Rejected => None
  end.

(** The lookup made for a line was fulfilled with [null] or [undefined]. *)
Definition answeredNullish (restClient : RestClient) (req : IValidationResult)
    (line : ICartArticle) : Prop :=
  restClient (resource line) (token (user req)) = Fulfilled JsNull
  ∨ restClient (resource line) (token (user req)) = Fulfilled JsUndefined.

(** ** The error handler of the auth service (errorhandler.go) *)

Module Rest.

(** The fields of [validator.FieldError] that the handler reads. *)
Record FieldError : Type := {
  Field : string;
  Tag : string
}.

Record pathMessage : Type := {
  Path : string;
  Message : string
}.

(** The objects handed to [c.JSON]: [gin.H] with the key ["error"],
    ["messages"] or ["token"]. *)
Inductive Body : Type :=
  | H_error (text : string)
  | H_messages (result : list pathMessage)
  | H_token (token : string).

(** One call [c.JSON(code, obj)]. *)
Record Written : Type := {
  code : Z;
  obj : Body
}.

(** A [gin.Context], as far as the handlers use it: the responses written
    so far, oldest first. *)
Definition GinContext : Type := list Written.

Definition JSON (c : GinContext) (code : Z) (obj : Body) : GinContext :=
  push c {| code := code; obj := obj |}.

(** The values [HandleError] tells apart, by the test that recognises
    them.  [validator.ValidationErrors] is a map, given here by its
    entries in the order the [range] visits them; a value that implements
    [errors.GinError] is given by what its [Handle] does to the context;
    [SimpleError] is any other [error], with the text of [Error()];
    [NotAnError] is [nil] or a value that is no [error]. *)
Inductive Err : Type :=
  | ValidationErrors (ve : list FieldError)
  | GinError (Handle : GinContext → GinContext)
  | ErrServerSelectionTimeout
  | SimpleError (text : string)
  | NotAnError.

Definition alreadyExistError : Body := H_error "Already exist".
Definition internalServerError : Body := H_error "Internal server error".

(** [strings.HasPrefix]. *)
Fixpoint HasPrefix (s prefix : string) {struct prefix} : bool :=
  match prefix, s with
  | EmptyString, _ => true
  | String _ _, EmptyString => false
  | String a prefix', String b s' =>
      if Ascii.eqb a b then HasPrefix s' prefix' else false
  end.

(** [strings.Contains]: [substr] occurs somewhere in [s]. *)
Fixpoint Contains (s substr : string) : bool :=
  HasPrefix s substr
  || match s with
     | EmptyString => false
     | String _ s' => Contains s' substr
     end.

Definition IsUniqueKeyError (text : string) : bool :=
  Contains text "duplicate key error".

Section Handler.
(** [strings.ToLower], left open: the handler only passes field names
    through it. *)
Context (ToLower : string → string).

(** The loop of [handleValidationError]: one [append] per entry. *)
Definition appendMessage (result : list pathMessage) (err : FieldError)
    : list pathMessage :=
  push result {| Path := ToLower (Field err); Message := Tag err |}.

Definition handleValidationError (c : GinContext) (validationErrors : list FieldError)
    : GinContext :=
  let result := fold_left appendMessage validationErrors [] in
  JSON c 400 (H_messages result).

(** [HandleError]: the tests in the order of the source. *)
Definition HandleError (c : GinContext) (err : Err) : GinContext :=
  match err with
  | ValidationErrors ve => handleValidationError c ve
  | GinError Handle => Handle c
  | ErrServerSelectionTimeout => JSON c 500 internalServerError
  | SimpleError text =>
      if IsUniqueKeyError text then JSON c 400 alreadyExistError
      else JSON c 500 (H_error text)
  | NotAnError => JSON c 500 internalServerError
  end.

(** [SignUp] of signup.go.  [bound] is what [c.ShouldBindJSON] yields:
    the request read from the body, or an error; [signUp] is
    [user.SignUp].  The result is the context and the requests that were
    handed to [user.SignUp]. *)
Definition SignUp {NewUserRequest : Type}
    (signUp : NewUserRequest → string + Err)
    (bound : NewUserRequest + Err) (c : GinContext)
    : GinContext * list NewUserRequest :=
  match bound with
  | inr err => (HandleError c err, [])
  | inl userRequest =>
      match signUp userRequest with
      | inr err => (HandleError c err, [userRequest])
      | inl token => (JSON c 200 (H_token token), [userRequest])
      end
  end.

End Handler.

End Rest.

(** * Properties *)

(** ** The final callback against the decision of section 4.2 *)

Lemma looseEq_true (x : option string) (s : string) :
  looseEq x s = true ↔ x = Some s.
Proof.
  destruct x as [t|]; simpl.
  - rewrite bool_decide_eq_true. split; congruence.
  - split; discriminate.
Qed.

Lemma find_firstMatch (results : list JsValue) (line : ICartArticle) (r : option JsValue) :
  find (sameId line) results = Normal r →
  truthyObject r = firstMatch results (articleId line).
Proof.
  revert r. unfold sameId. set (id := articleId line).
  induction results as [|v results IH]; intros r; simpl.
  - by intros [= <-].
  - destruct v as [| |o]; simpl; try discriminate.
    destruct (looseEq (Article._id o) id) eqn:E; simpl.
    + intros [= <-]. apply looseEq_true in E. by rewrite decide_True.
    + intros H. rewrite decide_False; [by apply IH|].
      intros E'. apply looseEq_true in E'. congruence.
Qed.


Lemma find_objects (results : list JsValue) (line : ICartArticle) :
  Forall isObject results →
  find (sameId line) results = Normal (JsObject <$> firstMatch results (articleId line)).
Proof.
  unfold sameId. set (id := articleId line).
  induction 1 as [|v results Hv _ IH]; simpl; [done|].
  destruct v as [| |o]; simpl in *; try done.
  destruct (looseEq (Article._id o) id) eqn:E; simpl.
  - apply looseEq_true in E. by rewrite decide_True.
  - rewrite decide_False; [done|]. intros E'. apply looseEq_true in E'. congruence.
Qed.

Lemma join_objects (results : list JsValue) (line : ICartArticle) :
  Forall isObject results →
  join results line
  = Normal {| article := line; result := JsObject <$> firstMatch results (articleId line) |}.
Proof. intros H. unfold join. by rewrite find_objects. Qed.

Lemma join_normal (results : list JsValue) (line : ICartArticle) (e : Joined) :
  join results line = Normal e →
  article e = line ∧ truthyObject (result e) = firstMatch results (articleId line).
Proof.
  unfold join.
  destruct (find (sameId line) results) as [r|] eqn:E; simpl; [|discriminate].
  intros [= <-]. simpl. split; [done | by apply find_firstMatch].
Qed.

(** What one step of the [forEach] adds to the two sequences. *)
Lemma visit_classify (e : Joined) (v : ICartValidation) :
  visit e v
  = {| errors := errors v ++ errorOf (classify (truthyObject (result e)) (article e));
       warnings := warnings v ++ warningOf (classify (truthyObject (result e)) (article e)) |}.
Proof.
  unfold visit, classify, push. destruct v as [es ws]; simpl.
  destruct (truthyObject (result e)) as [s|]; simpl.
  - destruct (negb (truthy (Article.enabled s))); simpl.
    + by rewrite app_nil_r.
    + destruct (lessThan (Article.stock s) (quantity (article e))); simpl;
        by rewrite ?app_nil_r.
  - by rewrite app_nil_r.
Qed.

Lemma forEach_visit (joined : list Joined) (v : ICartValidation) :
  forEach visit joined v
  = {| errors := errors v
         ++ flat_map (fun e => errorOf (classify (truthyObject (result e)) (article e))) joined;
       warnings := warnings v
         ++ flat_map (fun e => warningOf (classify (truthyObject (result e)) (article e))) joined |}.
Proof.
  unfold forEach. revert v.
  induction joined as [|e joined IH]; intros v; simpl.
  - rewrite !app_nil_r. by destruct v.
  - rewrite IH, visit_classify. simpl. by rewrite <- !app_assoc.
Qed.

Lemma mapArray_join (results : list JsValue) (lines : list ICartArticle)
    (joined : list Joined) :
  mapArray (join results) lines = Normal joined →
  forEach visit joined emptyValidation = reportOf results lines.
Proof.
  rewrite forEach_visit. unfold reportOf, emptyValidation; simpl.
  revert joined. induction lines as [|line lines IH]; intros joined; simpl.
  - by intros [= <-].
  - destruct (join results line) as [e|] eqn:Ej; simpl; [|discriminate].
    destruct (mapArray (join results) lines) as [es|] eqn:Em; simpl; [|discriminate].
    intros [= <-]. simpl.
    destruct (join_normal _ _ _ Ej) as [-> ->].
    specialize (IH es eq_refl). injection IH as IH1 IH2.
    unfold outcomeOf. by rewrite IH1, IH2.
Qed.

Lemma mapArray_join_objects (results : list JsValue) (lines : list ICartArticle) :
  Forall isObject results →
  ∃ joined, mapArray (join results) lines = Normal joined.
Proof.
  intros H. induction lines as [|line lines [joined IH]]; simpl; [by eexists|].
  rewrite join_objects by done. simpl. rewrite IH. simpl. by eexists.
Qed.

(** The callback ends in one of two ways: [next()] after writing the
    report of section 4.2, or a [TypeError] with the empty report in
    place. *)
Lemma onResults_cases (results : list JsValue) (req : IValidationResult) :
  onResults results req
    = (setValidation req (reportOf results (articles (cart req))), CalledNext)
  ∨ onResults results req = (setValidation req emptyValidation, TypeError).
Proof.
  unfold onResults. simpl.
  destruct (mapArray (join results) (articles (cart req))) as [joined|] eqn:E.
  - left. by rewrite (mapArray_join _ _ _ E).
  - by right.
Qed.

Lemma onResults_objects (results : list JsValue) (req : IValidationResult) :
  Forall isObject results →
  onResults results req
  = (setValidation req (reportOf results (articles (cart req))), CalledNext).
Proof.
  intros H. unfold onResults. simpl.
  destruct (mapArray_join_objects results (articles (cart req)) H) as [joined E].
  by rewrite E, (mapArray_join _ _ _ E).
Qed.

Lemma fanOut_objects (restClient : RestClient) (req : IValidationResult) :
  answersObjects restClient req → Forall isObject (fanOut restClient req).
Proof.
  unfold answersObjects, fanOut. intros H. apply Forall_fmap.
  eapply Forall_impl; [exact H|]. intros line. unfold iteratee; simpl.
  by destruct (restClient _ _).
Qed.

Lemma validateOrder_objects (restClient : RestClient) (req : IValidationResult) :
  answersObjects restClient req →
  validateOrder restClient req
  = (setValidation req (reportOf (fanOut restClient req) (articles (cart req))), CalledNext).
Proof. intros H. apply onResults_objects, fanOut_objects, H. Qed.

(** ** Reading the report of section 4.2 *)

Lemma classify_articleId (snapshot : option Article.t) (line : ICartArticle) (a m : string) :
  classify snapshot line = Error a m ∨ classify snapshot line = Warning a m →
  a = articleId line.
Proof.
  unfold classify. destruct snapshot as [s|].
  - destruct (negb _); [|destruct (lessThan _ _)]; intros [H|H]; congruence.
  - intros [H|H]; congruence.
Qed.

Lemma classify_error (snapshot : option Article.t) (line : ICartArticle) (a m : string) :
  classify snapshot line = Error a m →
  (snapshot = None ∧ m = "No se encuentra")
  ∨ (∃ s, snapshot = Some s ∧ truthy (Article.enabled s) = false ∧ m = "Articulo inválido").
Proof.
  unfold classify. destruct snapshot as [s|].
  - destruct (truthy (Article.enabled s)) eqn:E; simpl.
    + destruct (lessThan _ _); discriminate.
    + intros [= _ <-]. right. by exists s.
  - intros [= _ <-]. by left.
Qed.

Lemma classify_warning (snapshot : option Article.t) (line : ICartArticle) (a m : string) :
  classify snapshot line = Warning a m →
  m = "Insuficiente stock"
  ∧ ∃ s, snapshot = Some s ∧ truthy (Article.enabled s) = true
         ∧ lessThan (Article.stock s) (quantity line) = true.
Proof.
  unfold classify. destruct snapshot as [s|]; [|discriminate].
  destruct (truthy (Article.enabled s)) eqn:E; simpl; [|discriminate].
  destruct (lessThan _ _) eqn:L; [|discriminate].
  intros [= _ <-]. split; [done|]. by exists s.
Qed.

Lemma elem_of_errorOf (item : CartValidationItem) (o : LineValidationOutcome) :
  item ∈ errorOf o ↔ o = Error (item_articleId item) (message item).
Proof.
  destruct item as [a m]. destruct o as [a' m'|a' m'|]; simpl.
  - rewrite list_elem_of_singleton. split; congruence.
  - rewrite elem_of_nil. split; [done | discriminate].
  - rewrite elem_of_nil. split; [done | discriminate].
Qed.

Lemma elem_of_warningOf (item : CartValidationItem) (o : LineValidationOutcome) :
  item ∈ warningOf o ↔ o = Warning (item_articleId item) (message item).
Proof.
  destruct item as [a m]. destruct o as [a' m'|a' m'|]; simpl.
  - rewrite elem_of_nil. split; [done | discriminate].
  - rewrite list_elem_of_singleton. split; congruence.
  - rewrite elem_of_nil. split; [done | discriminate].
Qed.

Lemma elem_of_flat_map {A B} (f : A → list B) (l : list A) (y : B) :
  y ∈ flat_map f l ↔ ∃ x, x ∈ l ∧ y ∈ f x.
Proof.
  rewrite list_elem_of_In, in_flat_map.
  split; intros (x & Hx & Hy); exists x; by rewrite ?list_elem_of_In in *.
Qed.

Lemma elem_of_errors (results : list JsValue) (lines : list ICartArticle)
    (item : CartValidationItem) :
  item ∈ errors (reportOf results lines)
  ↔ ∃ line, line ∈ lines
            ∧ outcomeOf results line = Error (item_articleId item) (message item).
Proof.
  simpl. rewrite elem_of_flat_map.
  split; intros (l & Hl & H); exists l; by rewrite ?elem_of_errorOf in *.
Qed.

Lemma elem_of_warnings (results : list JsValue) (lines : list ICartArticle)
    (item : CartValidationItem) :
  item ∈ warnings (reportOf results lines)
  ↔ ∃ line, line ∈ lines
            ∧ outcomeOf results line = Warning (item_articleId item) (message item).
Proof.
  simpl. rewrite elem_of_flat_map.
  split; intros (l & Hl & H); exists l; by rewrite ?elem_of_warningOf in *.
Qed.

Lemma elem_of_ids (items : list CartValidationItem) (id : string) :
  id ∈ ids items ↔ ∃ m, entry id m ∈ items.
Proof.
  unfold ids. rewrite list_elem_of_fmap. split.
  - intros ([a m] & -> & H). by exists m.
  - intros (m & H). by exists (entry id m).
Qed.

(** An entry of [errors] tells what the join found for its article. *)
Lemma errors_snapshot (results : list JsValue) (lines : list ICartArticle)
    (id m : string) :
  entry id m ∈ errors (reportOf results lines) →
  (firstMatch results id = None ∧ m = "No se encuentra")
  ∨ (∃ s, firstMatch results id = Some s ∧ truthy (Article.enabled s) = false
          ∧ m = "Articulo inválido").
Proof.
  rewrite elem_of_errors. simpl. intros (l & _ & H).
  pose proof (classify_articleId _ _ _ _ (or_introl H)) as ->.
  by apply classify_error in H.
Qed.

(** An entry of [warnings] tells that the join found an enabled article. *)
Lemma warnings_snapshot (results : list JsValue) (lines : list ICartArticle) (id : string) :
  id ∈ ids (warnings (reportOf results lines)) →
  ∃ s, firstMatch results id = Some s ∧ truthy (Article.enabled s) = true.
Proof.
  rewrite elem_of_ids. intros (m & H). apply elem_of_warnings in H.
  simpl in H. destruct H as (l & _ & H).
  pose proof (classify_articleId _ _ _ _ (or_intror H)) as ->.
  apply classify_warning in H. destruct H as (_ & s & ? & ? & _). by exists s.
Qed.

Section Filter.
Context {A : Type} (P : A → Prop) `{!∀ x, Decision (P x)}.

Lemma filter_all (l : list A) : Forall P l → filter P l = l.
Proof.
  induction 1 as [|x l Hx _ IH]; [done|].
  by rewrite filter_cons_True, IH.
Qed.

Lemma filter_none (l : list A) : Forall (λ x, ¬ P x) l → filter P l = [].
Proof.
  induction 1 as [|x l Hx _ IH]; [done|].
  by rewrite filter_cons_False.
Qed.
End Filter.

(** In a cart without repeated articles, the entries about an article
    are the ones its own line contributed. *)
Lemma about_flat_map (f : ICartArticle → list CartValidationItem)
    (lines : list ICartArticle) (line : ICartArticle) :
  (∀ l item, item ∈ f l → item_articleId item = articleId l) →
  NoDup (map articleId lines) →
  line ∈ lines →
  about (articleId line) (flat_map f lines) = f line.
Proof.
  intros Hf. unfold about.
  induction lines as [|l lines IH]; simpl; intros Hnd Hin.
  - by apply elem_of_nil in Hin.
  - apply NoDup_cons in Hnd as [Hl Hnd]. rewrite filter_app.
    apply elem_of_cons in Hin as [-> | Hin].
    + rewrite filter_all, filter_none; [by rewrite app_nil_r | |].
      * apply Forall_forall. intros item Hitem E.
        apply elem_of_flat_map in Hitem as (l' & Hl' & Hitem).
        apply Hf in Hitem. apply Hl, list_elem_of_fmap. exists l'. split; congruence.
      * apply Forall_forall. intros item Hitem. by apply Hf.
    + rewrite (filter_none _ (f l)); [by apply IH|].
      apply Forall_forall. intros item Hitem E. apply Hf in Hitem.
      apply Hl, list_elem_of_fmap. exists line. split; congruence.
Qed.

Lemma about_errors (results : list JsValue) (c : ICart) (line : ICartArticle) :
  uniqueArticles c →
  line ∈ articles c →
  about (articleId line) (errors (reportOf results (articles c)))
  = errorOf (outcomeOf results line).
Proof.
  intros Hu Hin. simpl. apply about_flat_map; [|done..].
  intros l item H. apply elem_of_errorOf in H.
  by apply (classify_articleId _ _ _ _ (or_introl H)).
Qed.

Lemma about_warnings (results : list JsValue) (c : ICart) (line : ICartArticle) :
  uniqueArticles c →
  line ∈ articles c →
  about (articleId line) (warnings (reportOf results (articles c)))
  = warningOf (outcomeOf results line).
Proof.
  intros Hu Hin. simpl. apply about_flat_map; [|done..].
  intros l item H. apply elem_of_warningOf in H.
  by apply (classify_articleId _ _ _ _ (or_intror H)).
Qed.

Lemma about_nil (id : string) (items : list CartValidationItem) :
  about id items = [] → id ∉ ids items.
Proof.
  intros H Hin. apply elem_of_ids in Hin as (m & Hin).
  by apply (filter_nil_not_elem_of _ _ (entry id m) H).
Qed.

(** Each line adds at most one entry to the two sequences together. *)
Lemma about_count (results : list JsValue) (lines : list ICartArticle) (id : string) :
  (length (about id (errors (reportOf results lines)))
   + length (about id (warnings (reportOf results lines)))
   ≤ length (filter (λ l, articleId l = id) lines))%nat.
Proof.
  unfold about. simpl. induction lines as [|l lines IH]; simpl; [done|].
  rewrite !filter_app, !length_app, filter_cons.
  destruct (outcomeOf results l) as [a m|a m|] eqn:E; simpl.
  - pose proof (classify_articleId _ _ _ _ (or_introl E)) as ->.
    rewrite filter_cons, filter_nil. simpl.
    destruct (decide (articleId l = id)); simpl; lia.
  - pose proof (classify_articleId _ _ _ _ (or_intror E)) as ->.
    rewrite filter_cons, filter_nil. simpl.
    destruct (decide (articleId l = id)); simpl; lia.
  - destruct (decide (articleId l = id)); simpl; lia.
Qed.

(** A sequence built by letting each line contribute at most one entry
    runs along a subsequence of the lines. *)
Lemma flat_map_sublist {A B} (f : A → list B) (R : B → A → Prop) (lines : list A) :
  (∀ l, f l = [] ∨ ∃ y, f l = [y] ∧ R y l) →
  ∃ es, es `sublist_of` lines ∧ Forall2 R (flat_map f lines) es.
Proof.
  intros Hf. induction lines as [|l lines (es & Hsub & Hall)]; simpl.
  - exists []. split; constructor.
  - destruct (Hf l) as [-> | (y & -> & Hy)]; simpl.
    + exists es. split; [by constructor | done].
    + exists (l :: es). split; [by constructor | by constructor].
Qed.

(** The state [validateOrder] leaves behind, in its two ways of ending. *)
Lemma validateOrder_cases (restClient : RestClient) (req : IValidationResult) :
  validateOrder restClient req
    = (setValidation req (reportOf (fanOut restClient req) (articles (cart req))),
       CalledNext)
  ∨ validateOrder restClient req = (setValidation req emptyValidation, TypeError).
Proof. apply onResults_cases. Qed.

(** ** The join takes the first match *)


Lemma firstMatch_None (results : list JsValue) (id : string) :
  (∀ s, JsObject s ∈ results → Article._id s ≠ Some id) →
  firstMatch results id = None.
Proof.
  induction results as [|v results IH]; intros H; simpl; [done|].
  destruct v as [| |o]; try (apply IH; intros s' H'; apply H; by right).
  rewrite decide_False; [|apply H; by left].
  apply IH. intros s' H'. apply H. by right.
Qed.

(** The object that stands for a rejected lookup matches no article. *)
Lemma firstMatch_fanOut (restClient : RestClient) (req : IValidationResult) (id : string) :
  firstMatch (fanOut restClient req) id = firstMatch (fulfilled restClient req) id.
Proof.
  unfold fanOut, fulfilled, iteratee.
  induction (articles (cart req)) as [|l lines IH]; simpl; [done|].
  destruct (restClient (resource l) (token (user req))) as [v|]; simpl.
  - destruct v as [| |o]; [done..|]. by rewrite IH.
  - exact IH.
Qed.

Lemma reportOf_ext (results1 results2 : list JsValue) (lines : list ICartArticle) :
  (∀ id, firstMatch results1 id = firstMatch results2 id) →
  reportOf results1 lines = reportOf results2 lines.
Proof.
  intros H. unfold reportOf, outcomeOf. f_equal;
    apply flat_map_ext; intros l; by rewrite H.
Qed.

Lemma elem_of_fulfilled (restClient : RestClient) (req : IValidationResult) (v : JsValue) :
  v ∈ fulfilled restClient req
  ↔ ∃ l, l ∈ articles (cart req)
         ∧ restClient (resource l) (token (user req)) = Fulfilled v.
Proof.
  unfold fulfilled. rewrite elem_of_flat_map. split; intros (l & Hl & H); exists l.
  - split; [done|]. destruct (restClient _ _) as [v'|].
    + apply list_elem_of_singleton in H. by subst.
    + by apply elem_of_nil in H.
  - split; [done|]. rewrite H. by apply list_elem_of_singleton.
Qed.

(** The callback reads the cart and the token of the request and nothing
    else: the report already stored in [req.validation] is overwritten. *)
Lemma onResults_setValidation (results : list JsValue) (req : IValidationResult)
    (v : ICartValidation) :
  onResults results (setValidation req v) = onResults results req.
Proof. reflexivity. Qed.

Lemma validateOrder_ext (restClient : RestClient) (req1 req2 : IValidationResult) :
  cart req1 = cart req2 →
  token (user req1) = token (user req2) →
  snd (validateOrder restClient req1) = snd (validateOrder restClient req2)
  ∧ validation (fst (validateOrder restClient req1))
    = validation (fst (validateOrder restClient req2)).
Proof.
  intros Hc Ht. unfold validateOrder, fanOut, iteratee, onResults. simpl.
  rewrite Hc, Ht.
  by destruct (mapArray _ (articles (cart req2))).
Qed.

(** ** The sample scenario of section 8 *)

Example scenario_report :
  validateOrder scenarioCatalog (request scenarioCart)
  = (setValidation (request scenarioCart)
       {| errors := [entry "B" "No se encuentra"];
          warnings := [entry "C" "Insuficiente stock"] |},
     CalledNext).
Proof. reflexivity. Qed.

(** ** C8: the empty cart *)

(** C8.  For a cart without line items [validateOrder] reaches [next()]
    with a report whose [errors] and [warnings] are both empty, whatever
    the catalog does. *)
Theorem validateOrder_empty_cart (restClient : RestClient) (req : IValidationResult) :
  articles (cart req) = [] →
  validateOrder restClient req = (setValidation req emptyValidation, CalledNext).
Proof.
  intros H. unfold validateOrder, fanOut, onResults. simpl. by rewrite H.
Qed.

Lemma validateOrder_empty_cart_witness :
  articles (cart (request [])) = []
  ∧ validateOrder scenarioCatalog (request [])
    = (setValidation (request []) {| errors := []; warnings := [] |}, CalledNext).
Proof.
  split; [reflexivity|].
  apply (validateOrder_empty_cart scenarioCatalog (request [])). reflexivity.
Defined.

(** ** C10: the cart is left as it was *)

(** C10.  Whatever the catalog answers and however the callback ends,
    the request after [validateOrder] is the request before it with only
    the [validation] slot rewritten: the line items of the cart (article
    ids and quantities), its [userId], its [enabled] flag and the session
    are unchanged. *)
Theorem validateOrder_frame (restClient : RestClient) (req : IValidationResult) :
  ∃ report,
    fst (validateOrder restClient req) = setValidation req report
    ∧ cart (fst (validateOrder restClient req)) = cart req
    ∧ articles (cart (fst (validateOrder restClient req))) = articles (cart req)
    ∧ userId (cart (fst (validateOrder restClient req))) = userId (cart req)
    ∧ Schema.enabled (cart (fst (validateOrder restClient req))) = Schema.enabled (cart req)
    ∧ user (fst (validateOrder restClient req)) = user req.
Proof.
  unfold validateOrder.
  destruct (onResults_cases (fanOut restClient req) req) as [-> | ->];
    eexists; simpl; by repeat split.
Qed.

(** ** C7: repeated validation *)

(** C7.  With the catalog unchanged, two requests that carry the same
    cart and the same token get the same report, entry for entry and in
    the same order, and end the same way; in particular validating again
    the request that [validateOrder] has just filled changes nothing. *)
Theorem validateOrder_deterministic (restClient : RestClient)
    (req1 req2 : IValidationResult) :
  cart req1 = cart req2 →
  token (user req1) = token (user req2) →
  validation (fst (validateOrder restClient req1))
    = validation (fst (validateOrder restClient req2))
  ∧ snd (validateOrder restClient req1) = snd (validateOrder restClient req2)
  ∧ validateOrder restClient (fst (validateOrder restClient req1))
    = validateOrder restClient req1.
Proof.
  intros Hc Ht.
  destruct (validateOrder_ext restClient req1 req2 Hc Ht) as [Hs Hv].
  repeat split; [done | done |].
  unfold validateOrder.
  destruct (onResults_cases (fanOut restClient req1) req1) as [E | E];
    rewrite E; simpl; by rewrite <- E.
Qed.

Lemma validateOrder_deterministic_witness :
  validation (fst (validateOrder scenarioCatalog (request scenarioCart)))
    = validation (fst (validateOrder scenarioCatalog
                         (setValidation (request scenarioCart)
                            {| errors := [entry "Z" "stale"]; warnings := [] |})))
  ∧ snd (validateOrder scenarioCatalog (request scenarioCart))
    = snd (validateOrder scenarioCatalog
             (setValidation (request scenarioCart)
                {| errors := [entry "Z" "stale"]; warnings := [] |}))
  ∧ validateOrder scenarioCatalog
      (fst (validateOrder scenarioCatalog (request scenarioCart)))
    = validateOrder scenarioCatalog (request scenarioCart).
Proof.
  apply (validateOrder_deterministic scenarioCatalog (request scenarioCart)
           (setValidation (request scenarioCart)
              {| errors := [entry "Z" "stale"]; warnings := [] |}));
    reflexivity.
Defined.

(** ** C2: a line without a snapshot *)



(** ** C3: a disabled article *)



(** ** C4: an enabled article and its stock *)



(** ** C5: one sequence per line at most *)

(** C5.  For every cart and every catalog, the report left by
    [validateOrder] names no article in both [errors] and [warnings];
    every entry of either sequence comes from a line item of the cart
    whose outcome by the rules of section 4.2 is not [Ok]; and for every
    article the two sequences together hold at most as many entries as
    the cart has lines for it, that is at most one per line item. *)
Theorem validateOrder_at_most_one (restClient : RestClient) (req : IValidationResult) :
  ∃ report,
    validation (fst (validateOrder restClient req)) = Some report
    ∧ (∀ id, ¬ (id ∈ ids (errors report) ∧ id ∈ ids (warnings report)))
    ∧ (∀ item, item ∈ (errors report ++ warnings report)%list →
         ∃ line, line ∈ articles (cart req)
                 ∧ articleId line = item_articleId item
                 ∧ outcomeOf (fanOut restClient req) line ≠ Ok)
    ∧ (∀ id, (length (about id (errors report ++ warnings report)%list)
              ≤ length (filter (λ l, articleId l = id) (articles (cart req))))%nat).
Proof.
  destruct (validateOrder_cases restClient req) as [-> | ->]; simpl.
  - eexists. split; [done|]. split; [|split].
    + intros id [He Hw].
      apply warnings_snapshot in Hw as (s & Hs & Ht).
      apply elem_of_ids in He as (m & He).
      apply errors_snapshot in He as [[Hn _] | (s' & Hs' & Ht' & _)]; congruence.
    + intros item Hitem. apply elem_of_app in Hitem as [H | H].
      * apply elem_of_errors in H as (l & Hl & H). exists l.
        split; [done|]. split; [|congruence].
        symmetry. apply (classify_articleId _ _ _ _ (or_introl H)).
      * apply elem_of_warnings in H as (l & Hl & H). exists l.
        split; [done|]. split; [|congruence].
        symmetry. apply (classify_articleId _ _ _ _ (or_intror H)).
    + intros id. unfold about. rewrite filter_app, length_app.
      apply about_count.
  - exists emptyValidation. split; [done|]. split; [|split].
    + intros id [He _]. by apply elem_of_nil in He.
    + intros item H. by apply elem_of_nil in H.
    + intros id. simpl. lia.
Qed.

(** ** C6: cart order *)

(** C6.  For every cart and every catalog, the entries of [errors] are,
    one for one and in the same order, the entries of a subsequence of
    the cart's line items, each entry being the [Error] outcome of its
    line; likewise the entries of [warnings] and the [Warning] outcomes of
    a subsequence of the line items. *)
Theorem validateOrder_cart_order (restClient : RestClient) (req : IValidationResult) :
  ∃ report es ws,
    validation (fst (validateOrder restClient req)) = Some report
    ∧ es `sublist_of` articles (cart req)
    ∧ ws `sublist_of` articles (cart req)
    ∧ Forall2 (λ item l, item_articleId item = articleId l
                          ∧ outcomeOf (fanOut restClient req) l
                            = Error (item_articleId item) (message item))
        (errors report) es
    ∧ Forall2 (λ item l, item_articleId item = articleId l
                          ∧ outcomeOf (fanOut restClient req) l
                            = Warning (item_articleId item) (message item))
        (warnings report) ws.
Proof.
  destruct (validateOrder_cases restClient req) as [-> | ->]; simpl.
  - set (results := fanOut restClient req).
    edestruct (flat_map_sublist (λ l, errorOf (outcomeOf results l))
                 (λ item l, item_articleId item = articleId l
                            ∧ outcomeOf results l
                              = Error (item_articleId item) (message item))
                 (articles (cart req))) as (es & Hes & He).
    { intros l. destruct (outcomeOf results l) as [a m|a m|] eqn:E; simpl; [|by left..].
      right. eexists. split; [done|]. simpl. split; [|done].
      apply (classify_articleId _ _ _ _ (or_introl E)). }
    edestruct (flat_map_sublist (λ l, warningOf (outcomeOf results l))
                 (λ item l, item_articleId item = articleId l
                            ∧ outcomeOf results l
                              = Warning (item_articleId item) (message item))
                 (articles (cart req))) as (ws & Hws & Hw).
    { intros l. destruct (outcomeOf results l) as [a m|a m|] eqn:E; simpl;
        [by left| |by left].
      right. eexists. split; [done|]. simpl. split; [|done].
      apply (classify_articleId _ _ _ _ (or_intror E)). }
    by exists (reportOf results (articles (cart req))), es, ws.
  - exists emptyValidation, [], []. simpl.
    repeat split; try apply sublist_nil_l; constructor.
Qed.

(** ** C9: several snapshots with one id *)



(** ** C1: failed lookups *)

(** C1, as the code has it.  When every lookup for the cart is rejected
    or fulfilled with an object, [validateOrder] reaches [next()] with a
    report, and that report is the one the rules of section 4.2 give for
    the cart and the results of the fulfilled lookups alone: a rejected
    lookup is replaced by the object [{ _id: undefined }], which the join
    matches with no line.  A line item whose own lookup was rejected gets
    the entry "No se encuentra" in [errors], and none in [warnings],
    provided no fulfilled lookup of the cart answered with a snapshot that
    carries its id. *)
Theorem validateOrder_lookup_failures (restClient : RestClient) (req : IValidationResult) :
  answersObjects restClient req →
  ∃ report,
    validateOrder restClient req = (setValidation req report, CalledNext)
    ∧ report = reportOf (fulfilled restClient req) (articles (cart req))
    ∧ ∀ line,
        line ∈ articles (cart req) →
        restClient (resource line) (token (user req)) = Rejected →
        iteratee restClient req line = JsObject sentinel
        ∧ ((∀ l s, l ∈ articles (cart req) →
                   restClient (resource l) (token (user req)) = Fulfilled (JsObject s) →
                   Article._id s ≠ Some (articleId line)) →
           entry (articleId line) "No se encuentra" ∈ errors report
           ∧ articleId line ∉ ids (warnings report)).
Proof.
  intros Hobj. eexists. split; [by apply validateOrder_objects|].
  assert (reportOf (fanOut restClient req) (articles (cart req))
          = reportOf (fulfilled restClient req) (articles (cart req))) as Hr.
  { apply reportOf_ext. intros id. apply firstMatch_fanOut. }
  split; [done|].
  intros line Hin Hrej. split; [unfold iteratee; by rewrite Hrej|].
  intros Hno.
  assert (firstMatch (fulfilled restClient req) (articleId line) = None) as Hnone.
  { apply firstMatch_None. intros s H.
    apply elem_of_fulfilled in H as (l & Hl & H). by apply (Hno l). }
  rewrite Hr. split.
  - apply elem_of_errors. exists line. split; [done|].
    unfold outcomeOf. by rewrite Hnone.
  - intros Hw. apply warnings_snapshot in Hw as (s & Hs & _). congruence.
Qed.

Lemma validateOrder_lookup_failures_witness :
  answersObjects scenarioCatalog (request scenarioCart)
  ∧ ∃ report,
      validateOrder scenarioCatalog (request scenarioCart)
        = (setValidation (request scenarioCart) report, CalledNext)
      ∧ report = reportOf (fulfilled scenarioCatalog (request scenarioCart)) scenarioCart
      ∧ ∀ line,
          line ∈ scenarioCart →
          scenarioCatalog (resource line) "Bearer 5f2a" = Rejected →
          iteratee scenarioCatalog (request scenarioCart) line = JsObject sentinel
          ∧ ((∀ l s, l ∈ scenarioCart →
                     scenarioCatalog (resource l) "Bearer 5f2a" = Fulfilled (JsObject s) →
                     Article._id s ≠ Some (articleId line)) →
             entry (articleId line) "No se encuentra" ∈ errors report
             ∧ articleId line ∉ ids (warnings report)).
Proof.
  split; [by repeat constructor|].
  apply (validateOrder_lookup_failures scenarioCatalog (request scenarioCart)).
  by repeat constructor.
Defined.

(** C1 as stated fails on two inputs.  With the catalog of the scenario
    answering the GET for B with [result: null], the callback ends in a
    [TypeError]: [next()] is not reached and the report stays empty, where
    the claim expects B in [errors] and C in [warnings].  With the GET for
    A rejected and the GET for B answered by a snapshot of A, line A is
    joined to that snapshot and is not reported, and line B is. *)
Lemma validateOrder_lookup_failures_counterexample :
  (validateOrder nullCatalog (request scenarioCart)
   = (setValidation (request scenarioCart) {| errors := []; warnings := [] |}, TypeError))
  ∧ (crossedCatalog (resource (line "A" 2)) "Bearer 5f2a" = Rejected
     ∧ validateOrder crossedCatalog (request [line "A" 2; line "B" 1])
       = (setValidation (request [line "A" 2; line "B" 1])
            {| errors := [entry "B" "No se encuentra"]; warnings := [] |},
          CalledNext)).
Proof. split; [reflexivity | split; reflexivity]. Qed.

(** * Further properties of [validateOrder] *)

Lemma answersObjects_or_nullish (restClient : RestClient) (req : IValidationResult) :
  answersObjects restClient req
  ∨ ∃ line, line ∈ articles (cart req) ∧ answeredNullish restClient req line.
Proof.
  unfold answersObjects, answeredNullish.
  induction (articles (cart req)) as [|l lines IH].
  - left. constructor.
  - destruct (restClient (resource l) (token (user req))) as [[| |o]|] eqn:E.
    + right. exists l. split; [by left | by right].
    + right. exists l. split; [by left | by left].
    + destruct IH as [IH | (line & Hin & H)].
      * left. constructor; [by rewrite E | done].
      * right. exists line. split; [by right | done].
    + destruct IH as [IH | (line & Hin & H)].
      * left. constructor; [by rewrite E | done].
      * right. exists line. split; [by right | done].
Qed.

Lemma mapArray_throw {A B} (f : A → Completion B) (l : list A) (x : A) :
  x ∈ l → f x = Throw → mapArray f l = Throw.
Proof.
  intros Hin Hx. induction l as [|y l IH]; [by apply elem_of_nil in Hin|].
  simpl. apply elem_of_cons in Hin as [<- | Hin].
  - by rewrite Hx.
  - destruct (f y); simpl; [|done]. by rewrite IH.
Qed.

Section OwnAnswers.
Context (restClient : RestClient) (req : IValidationResult).

#[local] Abbreviation echoes := (echoesOn restClient req).

Lemma echoes_cons (l : ICartArticle) (lines : list ICartArticle) :
  echoes (l :: lines) → echoes lines.
Proof. intros H l' o Hin. apply H. by right. Qed.

(** Among lines with distinct articles whose answers carry the id asked
    for, no answer to another line matches a given article. *)
Lemma firstMatch_others (lines : list ICartArticle) (id : string) :
  echoes lines →
  id ∉ map articleId lines →
  firstMatch (map (iteratee restClient req) lines) id = None.
Proof.
  intros He Hid. apply firstMatch_None. intros o Ho.
  apply list_elem_of_fmap in Ho as (l & Hl & Hin). unfold iteratee in Hl.
  destruct (restClient (resource l) (token (user req))) as [v|] eqn:E.
  - subst v. rewrite (He l o Hin E). intros [= <-].
    apply Hid, list_elem_of_fmap. by exists l.
  - by injection Hl as ->.
Qed.

Lemma firstMatch_own (lines : list ICartArticle) (line : ICartArticle) :
  echoes lines →
  NoDup (map articleId lines) →
  line ∈ lines →
  firstMatch (map (iteratee restClient req) lines) (articleId line)
  = ownSnapshot restClient req line.
Proof.
  intros He Hnd Hin. induction lines as [|l lines IH]; [by apply elem_of_nil in Hin|].
  simpl in Hnd. apply NoDup_cons in Hnd as [Hl Hnd].
  assert (l = line ∨ (line ∈ lines ∧ articleId l ≠ articleId line)) as [-> | [Hin' Hne]].
  { apply elem_of_cons in Hin as [-> | Hin]; [by left|]. right. split; [done|].
    intros E. apply Hl. rewrite E. apply list_elem_of_fmap. by exists line. }
  - pose proof (firstMatch_others lines (articleId line) (echoes_cons _ _ He) Hl) as Hrest.
    simpl. unfold iteratee at 1, ownSnapshot.
    destruct (restClient (resource line) (token (user req))) as [[| |o]|] eqn:E; simpl;
      try done.
    rewrite decide_True; [done|]. apply (He line o); [by left | done].
  - simpl. rewrite <- (IH (echoes_cons _ _ He) Hnd Hin'). unfold iteratee at 1.
    destruct (restClient (resource l) (token (user req))) as [[| |o]|] eqn:E; simpl;
      try done.
    rewrite decide_False; [done|]. rewrite (He l o); [congruence | by left | done].
Qed.

(** With distinct articles and answers that carry the id asked for, the
    search for a line whose own answer is [null] or [undefined] runs into
    a property read on such a value. *)
Lemma find_nullish (lines : list ICartArticle) (line : ICartArticle) :
  echoes lines →
  NoDup (map articleId lines) →
  line ∈ lines →
  answeredNullish restClient req line →
  find (sameId line) (map (iteratee restClient req) lines) = Throw.
Proof.
  intros He Hnd Hin Hnull. induction lines as [|l lines IH]; [by apply elem_of_nil in Hin|].
  simpl in Hnd. apply NoDup_cons in Hnd as [Hl Hnd].
  assert (l = line ∨ (line ∈ lines ∧ articleId l ≠ articleId line)) as [-> | [Hin' Hne]].
  { apply elem_of_cons in Hin as [-> | Hin]; [by left|]. right. split; [done|].
    intros E. apply Hl. rewrite E. apply list_elem_of_fmap. by exists line. }
  - assert (iteratee restClient req line = JsNull
            ∨ iteratee restClient req line = JsUndefined) as [Hi | Hi]
      by (unfold iteratee; destruct Hnull as [-> | ->]; auto).
    + simpl. by rewrite Hi.
    + simpl. by rewrite Hi.
  - simpl. destruct (iteratee restClient req l) as [| |o] eqn:Hi; simpl; try done.
    assert (looseEq (Article._id o) (articleId line) = false) as ->.
    { unfold iteratee in Hi.
      destruct (restClient (resource l) (token (user req))) as [v|] eqn:E.
      - subst v. rewrite (He l o); [|by left | done]. simpl.
        by rewrite bool_decide_eq_false_2.
      - by injection Hi as <-. }
    by apply IH; [eapply echoes_cons|..].
Qed.

End OwnAnswers.

Lemma classify_ok (snapshot : option Article.t) (line : ICartArticle) :
  classify snapshot line = Ok
  ↔ ∃ s, snapshot = Some s ∧ truthy (Article.enabled s) = true
         ∧ lessThan (Article.stock s) (quantity line) = false.
Proof.
  unfold classify. split.
  - destruct snapshot as [s|]; [|discriminate].
    destruct (truthy (Article.enabled s)) eqn:Et; simpl; [|discriminate].
    destruct (lessThan _ _) eqn:El; [discriminate|]. intros _. by exists s.
  - intros (s & -> & -> & ->). done.
Qed.

Lemma flat_map_ext_elem {A B} (f g : A → list B) (l : list A) :
  (∀ x, x ∈ l → f x = g x) → flat_map f l = flat_map g l.
Proof.
  induction l as [|x l IH]; intros H; simpl; [done|].
  rewrite (H x) by (by left). f_equal. apply IH. intros y Hy. apply H. by right.
Qed.

Lemma flat_map_nil {A B} (f : A → list B) (l : list A) :
  flat_map f l = [] ↔ ∀ x, x ∈ l → f x = [].
Proof.
  induction l as [|x l IH]; simpl.
  - split; [|done]. intros _ x Hx. by apply elem_of_nil in Hx.
  - split.
    + intros H. apply app_eq_nil in H as [Hx Hl]. intros y Hy.
      apply elem_of_cons in Hy as [-> | Hy]; [done|]. by apply IH.
    + intros H. rewrite (H x) by (by left). simpl. apply IH.
      intros y Hy. apply H. by right.
Qed.

(** The lookups made for a cart depend on the ids of its lines and on
    the token only. *)
Lemma fanOut_ids (restClient : RestClient) (req1 req2 : IValidationResult) :
  token (user req1) = token (user req2) →
  map articleId (articles (cart req1)) = map articleId (articles (cart req2)) →
  fanOut restClient req1 = fanOut restClient req2.
Proof.
  intros Ht. unfold fanOut, iteratee, resource. rewrite Ht.
  generalize (articles (cart req2)).
  induction (articles (cart req1)) as [|l1 lines1 IH]; intros [|l2 lines2]; simpl;
    try done.
  intros [= E1 E2]. rewrite E1. f_equal. by apply IH.
Qed.

Lemma join_ids (results : list JsValue) (l1 l2 : ICartArticle) :
  articleId l1 = articleId l2 →
  find (sameId l1) results = find (sameId l2) results.
Proof. intros E. unfold sameId. by rewrite E. Qed.

Lemma mapArray_throw_inv {A B} (f : A → Completion B) (l : list A) :
  mapArray f l = Throw → ∃ x, x ∈ l ∧ f x = Throw.
Proof.
  induction l as [|y l IH]; simpl; [discriminate|].
  destruct (f y) as [b|] eqn:Ey; simpl.
  - destruct (mapArray f l) as [bs|]; simpl; [discriminate|].
    intros _. destruct (IH eq_refl) as (x & Hx & H). exists x. split; [by right | done].
  - intros _. exists y. split; [by left | done].
Qed.

Lemma join_throw (results : list JsValue) (line : ICartArticle) :
  join results line = Throw ↔ find (sameId line) results = Throw.
Proof.
  unfold join. destruct (find (sameId line) results); simpl; split; done.
Qed.

Lemma mapArray_join_ids (results : list JsValue) (lines1 lines2 : list ICartArticle) :
  map articleId lines1 = map articleId lines2 →
  mapArray (join results) lines1 = Throw →
  mapArray (join results) lines2 = Throw.
Proof.
  intros Hids H. apply mapArray_throw_inv in H as (x & Hx & H).
  assert (articleId x ∈ map articleId lines2) as Hy.
  { rewrite <- Hids. apply list_elem_of_fmap. by exists x. }
  apply list_elem_of_fmap in Hy as (y & Ey & Hy).
  apply (mapArray_throw _ _ y Hy). apply join_throw.
  rewrite <- (join_ids results x y Ey). by apply join_throw.
Qed.

(** Whether the join throws, and what it writes to [errors], depends on
    the ids of the lines only. *)
Lemma onResults_ids (results : list JsValue) (req1 req2 : IValidationResult) :
  map articleId (articles (cart req1)) = map articleId (articles (cart req2)) →
  snd (onResults results req1) = snd (onResults results req2)
  ∧ (errors <$> validation (fst (onResults results req1)))
    = (errors <$> validation (fst (onResults results req2))).
Proof.
  intros Hids. unfold onResults. simpl.
  destruct (mapArray (join results) (articles (cart req1))) as [j1|] eqn:E1;
    destruct (mapArray (join results) (articles (cart req2))) as [j2|] eqn:E2; simpl.
  - split; [done|]. rewrite (mapArray_join _ _ _ E1), (mapArray_join _ _ _ E2).
    simpl. f_equal. clear E1 E2. revert Hids.
    generalize (articles (cart req2)).
    induction (articles (cart req1)) as [|l1 lines1 IH]; intros [|l2 lines2]; simpl;
      try done.
    intros [= Ea Eb]. rewrite (IH _ Eb). f_equal.
    unfold outcomeOf, classify. rewrite Ea.
    destruct (firstMatch results (articleId l2)) as [s|]; [|done].
    destruct (negb (truthy (Article.enabled s))); [done|].
    by destruct (lessThan _ (quantity l1)), (lessThan _ (quantity l2)).
  - apply (mapArray_join_ids _ _ _ (eq_sym Hids)) in E2. congruence.
  - apply (mapArray_join_ids _ _ _ Hids) in E1. congruence.
  - done.
Qed.

(** Case analysis on the membership of a line in a cart written out. *)
Ltac each_line H :=
  repeat (apply elem_of_cons in H as [-> | H]);
  [.. | by apply elem_of_nil in H].

(** ** When the callback throws *)

(** In a cart without repeated articles, with a catalog whose objects
    carry the id asked for, [validateOrder] ends in a [TypeError] exactly
    when the lookup of some line was fulfilled with [null] or
    [undefined]; [next()] is then not reached and the report left in the
    request is empty. *)
Theorem validateOrder_TypeError_iff (restClient : RestClient) (req : IValidationResult) :
  uniqueArticles (cart req) →
  echoesId restClient req →
  (snd (validateOrder restClient req) = TypeError
   ↔ ∃ line, line ∈ articles (cart req) ∧ answeredNullish restClient req line)
  ∧ (snd (validateOrder restClient req) = TypeError →
     validation (fst (validateOrder restClient req)) = Some emptyValidation).
Proof.
  intros Hu He. split; [split|].
  - intros Hs. destruct (answersObjects_or_nullish restClient req) as [Hobj | H]; [|done].
    by rewrite (validateOrder_objects _ _ Hobj) in Hs.
  - intros (line & Hin & Hnull).
    pose proof (find_nullish restClient req _ line He Hu Hin Hnull) as Hf.
    unfold validateOrder, onResults, fanOut. simpl.
    by rewrite (mapArray_throw _ _ line Hin (proj2 (join_throw _ _) Hf)).
  - intros Hs. destruct (validateOrder_cases restClient req) as [E | E];
      rewrite E in *; [discriminate | done].
Qed.

Lemma validateOrder_TypeError_iff_witness :
  uniqueArticles (cart (request scenarioCart))
  ∧ echoesId nullCatalog (request scenarioCart)
  ∧ (snd (validateOrder nullCatalog (request scenarioCart)) = TypeError
     ↔ ∃ line, line ∈ scenarioCart
               ∧ answeredNullish nullCatalog (request scenarioCart) line)
  ∧ (snd (validateOrder nullCatalog (request scenarioCart)) = TypeError →
     validation (fst (validateOrder nullCatalog (request scenarioCart)))
     = Some emptyValidation).
Proof.
  assert (uniqueArticles (cart (request scenarioCart))) as Hu.
  { unfold uniqueArticles. refine (bool_decide_unpack _ _). vm_compute. exact I. }
  assert (echoesId nullCatalog (request scenarioCart)) as He.
  { intros l o Hin H. simpl in Hin. each_line Hin; vm_compute in H;
      first [discriminate | by injection H as <-]. }
  split; [exact Hu|]. split; [exact He|].
  exact (validateOrder_TypeError_iff nullCatalog (request scenarioCart) Hu He).
Defined.

(** ** Joining by id and joining by position *)

(** In a cart without repeated articles, when every lookup was rejected
    or fulfilled with an object that carries the id asked for, the join by
    id gives every line the answer to its own lookup: the report is the
    one obtained by classifying each line against what its own lookup
    returned. *)
Theorem validateOrder_by_position (restClient : RestClient) (req : IValidationResult) :
  answersObjects restClient req →
  uniqueArticles (cart req) →
  echoesId restClient req →
  validateOrder restClient req
  = (setValidation req
       {| errors :=
            flat_map (λ line, errorOf (classify (ownSnapshot restClient req line) line))
              (articles (cart req));
          warnings :=
            flat_map (λ line, warningOf (classify (ownSnapshot restClient req line) line))
              (articles (cart req)) |},
     CalledNext).
Proof.
  intros Hobj Hu He. rewrite (validateOrder_objects _ _ Hobj).
  unfold reportOf, outcomeOf, fanOut. f_equal. f_equal. f_equal;
    apply flat_map_ext_elem; intros line Hin;
    by rewrite (firstMatch_own restClient req _ line He Hu Hin).
Qed.

Lemma validateOrder_by_position_witness :
  answersObjects scenarioCatalog (request scenarioCart)
  ∧ uniqueArticles (cart (request scenarioCart))
  ∧ echoesId scenarioCatalog (request scenarioCart)
  ∧ validateOrder scenarioCatalog (request scenarioCart)
    = (setValidation (request scenarioCart)
         {| errors :=
              flat_map (λ line, errorOf (classify
                          (ownSnapshot scenarioCatalog (request scenarioCart) line) line))
                scenarioCart;
            warnings :=
              flat_map (λ line, warningOf (classify
                          (ownSnapshot scenarioCatalog (request scenarioCart) line) line))
                scenarioCart |},
       CalledNext).
Proof.
  assert (uniqueArticles (cart (request scenarioCart))) as Hu.
  { unfold uniqueArticles. refine (bool_decide_unpack _ _). vm_compute. exact I. }
  assert (echoesId scenarioCatalog (request scenarioCart)) as He.
  { intros l o Hin H. simpl in Hin. each_line Hin; vm_compute in H;
      first [discriminate | by injection H as <-]. }
  assert (answersObjects scenarioCatalog (request scenarioCart)) as Hobj
    by (by repeat constructor).
  split; [exact Hobj|]. split; [exact Hu|]. split; [exact He|].
  exact (validateOrder_by_position scenarioCatalog (request scenarioCart) Hobj Hu He).
Defined.

(** ** The messages *)

(** Whatever the cart and the catalog, every entry of [errors] carries
    the message "No se encuentra" or "Articulo inválido", every entry of
    [warnings] the message "Insuficiente stock", and every entry names an
    article of the cart. *)
Theorem validateOrder_messages (restClient : RestClient) (req : IValidationResult) :
  ∃ report,
    validation (fst (validateOrder restClient req)) = Some report
    ∧ (∀ item, item ∈ errors report →
         (message item = "No se encuentra" ∨ message item = "Articulo inválido")
         ∧ item_articleId item ∈ map articleId (articles (cart req)))
    ∧ (∀ item, item ∈ warnings report →
         message item = "Insuficiente stock"
         ∧ item_articleId item ∈ map articleId (articles (cart req))).
Proof.
  destruct (validateOrder_cases restClient req) as [-> | ->]; simpl.
  - eexists. split; [done|]. split.
    + intros item H. apply elem_of_errors in H as (l & Hl & H). split.
      * apply classify_error in H as [[_ ->] | (s & _ & _ & ->)]; auto.
      * rewrite (classify_articleId _ _ _ _ (or_introl H)).
        apply list_elem_of_fmap. by exists l.
    + intros item H. apply elem_of_warnings in H as (l & Hl & H). split.
      * by apply classify_warning in H as [-> _].
      * rewrite (classify_articleId _ _ _ _ (or_intror H)).
        apply list_elem_of_fmap. by exists l.
  - exists emptyValidation. split; [done|].
    split; intros item H; by apply elem_of_nil in H.
Qed.

(** ** A clean report *)

(** When every lookup was rejected or fulfilled with an object, the
    report has no error and no warning exactly when the join gives every
    line of the cart an enabled snapshot whose stock is not below the
    quantity of the line. *)
Theorem validateOrder_clean_iff (restClient : RestClient) (req : IValidationResult) :
  answersObjects restClient req →
  ∃ report,
    validateOrder restClient req = (setValidation req report, CalledNext)
    ∧ (errors report = [] ∧ warnings report = []
       ↔ ∀ line, line ∈ articles (cart req) →
           ∃ s, find (sameId line) (fanOut restClient req) = Normal (Some (JsObject s))
                ∧ truthy (Article.enabled s) = true
                ∧ lessThan (Article.stock s) (quantity line) = false).
Proof.
  intros Hobj. eexists. split; [by apply validateOrder_objects|].
  pose proof (fanOut_objects _ _ Hobj) as Hres.
  set (results := fanOut restClient req) in *. simpl. rewrite !flat_map_nil. split.
  - intros [He Hw] line Hin.
    assert (outcomeOf results line = Ok) as Hok.
    { specialize (He line Hin). specialize (Hw line Hin).
      by destruct (outcomeOf results line). }
    apply classify_ok in Hok as (s & Hs & Ht & Hl). exists s.
    by rewrite (find_objects _ _ Hres), Hs.
  - intros H. split; intros line Hin; destruct (H line Hin) as (s & Hf & Ht & Hl);
      apply find_firstMatch in Hf; simpl in Hf;
      assert (outcomeOf results line = Ok) as ->
        by (apply classify_ok; by exists s); done.
Qed.

Lemma validateOrder_clean_iff_witness :
  let restClient := catalogOf [("A", Fulfilled (snapshot "A" 3 true))] in
  let req := request [line "A" 3] in
  answersObjects restClient req
  ∧ ∃ report,
      validateOrder restClient req = (setValidation req report, CalledNext)
      ∧ (errors report = [] ∧ warnings report = []
         ↔ ∀ line, line ∈ articles (cart req) →
             ∃ s, find (sameId line) (fanOut restClient req) = Normal (Some (JsObject s))
                  ∧ truthy (Article.enabled s) = true
                  ∧ lessThan (Article.stock s) (quantity line) = false).
Proof.
  intros restClient req. split; [by repeat constructor|].
  apply (validateOrder_clean_iff restClient req). by repeat constructor.
Defined.

(** ** Errors and quantities *)

(** With the same catalog and token, two carts that list the same
    articles in the same order end [validateOrder] the same way and get
    the same [errors], whatever the quantities of their lines: only
    [warnings] depends on quantities. *)
Theorem validateOrder_errors_by_ids (restClient : RestClient)
    (req1 req2 : IValidationResult) :
  token (user req1) = token (user req2) →
  map articleId (articles (cart req1)) = map articleId (articles (cart req2)) →
  snd (validateOrder restClient req1) = snd (validateOrder restClient req2)
  ∧ (errors <$> validation (fst (validateOrder restClient req1)))
    = (errors <$> validation (fst (validateOrder restClient req2))).
Proof.
  intros Ht Hids. unfold validateOrder.
  rewrite (fanOut_ids restClient req1 req2 Ht Hids).
  by apply onResults_ids.
Qed.

Lemma validateOrder_errors_by_ids_witness :
  let req1 := request scenarioCart in
  let req2 := request [line "A" 20; line "B" 7; line "C" 1] in
  token (user req1) = token (user req2)
  ∧ map articleId (articles (cart req1)) = map articleId (articles (cart req2))
  ∧ snd (validateOrder scenarioCatalog req1) = snd (validateOrder scenarioCatalog req2)
  ∧ (errors <$> validation (fst (validateOrder scenarioCatalog req1)))
    = (errors <$> validation (fst (validateOrder scenarioCatalog req2))).
Proof.
  intros req1 req2. split; [reflexivity|]. split; [reflexivity|].
  apply (validateOrder_errors_by_ids scenarioCatalog req1 req2); reflexivity.
Defined.

(** ** Snapshots with missing fields *)

Lemma line_entries (restClient : RestClient) (req : IValidationResult)
    (line : ICartArticle) (s : Article.t) :
  answersObjects restClient req →
  uniqueArticles (cart req) →
  line ∈ articles (cart req) →
  find (sameId line) (fanOut restClient req) = Normal (Some (JsObject s)) →
  ∃ report,
    validateOrder restClient req = (setValidation req report, CalledNext)
    ∧ about (articleId line) (errors report) = errorOf (classify (Some s) line)
    ∧ about (articleId line) (warnings report) = warningOf (classify (Some s) line).
Proof.
  intros Hobj Hu Hin Hfind.
  pose proof (find_firstMatch _ _ _ Hfind) as Hfirst. simpl in Hfirst.
  eexists. split; [by apply validateOrder_objects|].
  rewrite about_errors, about_warnings by done.
  unfold outcomeOf. by rewrite <- Hfirst.
Qed.

(** In a cart without repeated articles, when every lookup was rejected
    or fulfilled with an object and the join gives a line a snapshot that
    has no [enabled] field, the line is reported as "Articulo inválido",
    as if the article were disabled, and gets no warning. *)
Theorem validateOrder_enabled_missing (restClient : RestClient) (req : IValidationResult)
    (line : ICartArticle) (s : Article.t) :
  answersObjects restClient req →
  uniqueArticles (cart req) →
  line ∈ articles (cart req) →
  find (sameId line) (fanOut restClient req) = Normal (Some (JsObject s)) →
  Article.enabled s = None →
  ∃ report,
    validateOrder restClient req = (setValidation req report, CalledNext)
    ∧ about (articleId line) (errors report) = [entry (articleId line) "Articulo inválido"]
    ∧ (articleId line ∉ ids (warnings report)).
Proof.
  intros Hobj Hu Hin Hfind Hen.
  destruct (line_entries _ _ _ _ Hobj Hu Hin Hfind) as (report & Hv & He & Hw).
  exists report. split; [done|]. unfold classify in He, Hw. rewrite Hen in He, Hw.
  split; [done | by apply about_nil].
Qed.

Lemma validateOrder_enabled_missing_witness :
  let s := {| Article._id := Some "A"; Article.stock := Some 9; Article.enabled := None |} in
  let restClient := catalogOf [("A", Fulfilled (JsObject s))] in
  let req := request [line "A" 1] in
  answersObjects restClient req
  ∧ uniqueArticles (cart req)
  ∧ line "A" 1 ∈ articles (cart req)
  ∧ find (sameId (line "A" 1)) (fanOut restClient req) = Normal (Some (JsObject s))
  ∧ ∃ report,
      validateOrder restClient req = (setValidation req report, CalledNext)
      ∧ about "A" (errors report) = [entry "A" "Articulo inválido"]
      ∧ ("A" ∉ ids (warnings report)).
Proof.
  intros s restClient req.
  assert (uniqueArticles (cart req)) as Hu.
  { unfold uniqueArticles. refine (bool_decide_unpack _ _). vm_compute. exact I. }
  split; [by repeat constructor|]. split; [exact Hu|].
  split; [by repeat constructor|]. split; [reflexivity|].
  apply (validateOrder_enabled_missing restClient req (line "A" 1) s);
    [by repeat constructor | exact Hu | by repeat constructor | reflexivity | reflexivity].
Defined.

(** In a cart without repeated articles, when every lookup was rejected
    or fulfilled with an object and the join gives a line an enabled
    snapshot that has no [stock] field, the line gets no entry at all,
    whatever its quantity: the stock check never fires. *)
Theorem validateOrder_stock_missing (restClient : RestClient) (req : IValidationResult)
    (line : ICartArticle) (s : Article.t) :
  answersObjects restClient req →
  uniqueArticles (cart req) →
  line ∈ articles (cart req) →
  find (sameId line) (fanOut restClient req) = Normal (Some (JsObject s)) →
  Article.enabled s = Some true →
  Article.stock s = None →
  ∃ report,
    validateOrder restClient req = (setValidation req report, CalledNext)
    ∧ (articleId line ∉ ids (errors report))
    ∧ (articleId line ∉ ids (warnings report)).
Proof.
  intros Hobj Hu Hin Hfind Hen Hst.
  destruct (line_entries _ _ _ _ Hobj Hu Hin Hfind) as (report & Hv & He & Hw).
  exists report. split; [done|]. unfold classify in He, Hw.
  rewrite Hen, Hst in He, Hw. split; by apply about_nil.
Qed.

Lemma validateOrder_stock_missing_witness :
  let s := {| Article._id := Some "A"; Article.stock := None;
              Article.enabled := Some true |} in
  let restClient := catalogOf [("A", Fulfilled (JsObject s))] in
  let req := request [line "A" 1000] in
  answersObjects restClient req
  ∧ uniqueArticles (cart req)
  ∧ line "A" 1000 ∈ articles (cart req)
  ∧ find (sameId (line "A" 1000)) (fanOut restClient req) = Normal (Some (JsObject s))
  ∧ ∃ report,
      validateOrder restClient req = (setValidation req report, CalledNext)
      ∧ ("A" ∉ ids (errors report))
      ∧ ("A" ∉ ids (warnings report)).
Proof.
  intros s restClient req.
  assert (uniqueArticles (cart req)) as Hu.
  { unfold uniqueArticles. refine (bool_decide_unpack _ _). vm_compute. exact I. }
  split; [by repeat constructor|]. split; [exact Hu|].
  split; [by repeat constructor|]. split; [reflexivity|].
  apply (validateOrder_stock_missing restClient req (line "A" 1000) s);
    [by repeat constructor | exact Hu | by repeat constructor
     | reflexivity | reflexivity | reflexivity].
Defined.

(** * The other handlers *)

(** ** [validateOrder] and the [validated] flag *)

Lemma reportOf_lines (results : list JsValue) (lines1 lines2 : list ICartArticle) :
  map (λ l, (articleId l, quantity l)) lines1
  = map (λ l, (articleId l, quantity l)) lines2 →
  reportOf results lines1 = reportOf results lines2.
Proof.
  revert lines2. unfold reportOf, outcomeOf, classify.
  induction lines1 as [|l1 lines1 IH]; intros [|l2 lines2]; simpl; try done.
  intros [= Ea Eq E]. specialize (IH _ E). injection IH as IH1 IH2.
  by rewrite Ea, Eq, IH1, IH2.
Qed.

(** [validateOrder] does not look at the [validated] flag of the lines:
    with the same catalog and token, two carts whose lines have the same
    article ids and quantities, in the same order, get the same report
    and end the same way. *)
Theorem validateOrder_ignores_validated (restClient : RestClient)
    (req1 req2 : IValidationResult) :
  token (user req1) = token (user req2) →
  map (λ l, (articleId l, quantity l)) (articles (cart req1))
  = map (λ l, (articleId l, quantity l)) (articles (cart req2)) →
  snd (validateOrder restClient req1) = snd (validateOrder restClient req2)
  ∧ validation (fst (validateOrder restClient req1))
    = validation (fst (validateOrder restClient req2)).
Proof.
  intros Ht Hl.
  assert (map articleId (articles (cart req1)) = map articleId (articles (cart req2)))
    as Hids.
  { apply (f_equal (map fst)) in Hl. by rewrite !map_map in Hl. }
  unfold validateOrder. rewrite (fanOut_ids restClient req1 req2 Ht Hids).
  destruct (onResults_ids (fanOut restClient req2) req1 req2 Hids) as [Hs _].
  split; [done|].
  destruct (onResults_cases (fanOut restClient req2) req1) as [E1 | E1];
    destruct (onResults_cases (fanOut restClient req2) req2) as [E2 | E2];
    rewrite E1, E2 in *; simpl in *; try done.
  by rewrite (reportOf_lines _ _ _ Hl).
Qed.

Lemma validateOrder_ignores_validated_witness :
  let unchecked :=
    [ {| articleId := "A"; quantity := 2; validated := false |};
      {| articleId := "B"; quantity := 1; validated := false |};
      {| articleId := "C"; quantity := 5; validated := false |} ] in
  token (user (request scenarioCart)) = token (user (request unchecked))
  ∧ map (λ l, (articleId l, quantity l)) (articles (cart (request scenarioCart)))
    = map (λ l, (articleId l, quantity l)) (articles (cart (request unchecked)))
  ∧ snd (validateOrder scenarioCatalog (request scenarioCart))
    = snd (validateOrder scenarioCatalog (request unchecked))
  ∧ validation (fst (validateOrder scenarioCatalog (request scenarioCart)))
    = validation (fst (validateOrder scenarioCatalog (request unchecked))).
Proof.
  intros unchecked. split; [reflexivity|]. split; [reflexivity|].
  apply (validateOrder_ignores_validated scenarioCatalog
           (request scenarioCart) (request unchecked)); reflexivity.
Defined.

(** ** [findCurrentCart] *)

Lemma forEach_notify (c : Document.t) (lines : list ICartArticle) (log : list Event) :
  forEach (notify c) lines log
  = (log ++ map (λ a, ArticleValidation (Document._id c) (articleId a))
              (filter (λ a, validated a = false) lines))%list.
Proof.
  unfold forEach. revert log.
  induction lines as [|a lines IH]; intros log; simpl.
  - by rewrite app_nil_r.
  - rewrite IH. unfold notify, push. rewrite filter_cons.
    destruct (validated a); simpl; [done|]. by rewrite <- app_assoc.
Qed.

(** When the user has a cart, [findCurrentCart] puts it on the request,
    posts one article-validation message for each line whose [validated]
    flag is not set, in cart order and with the id of that cart, saves
    nothing and calls [next()]. *)
Theorem findCurrentCart_found (findOne : string → bool → QueryResult)
    (newCart : Document.t) (save : Document.t → option DbError)
    (req : Request.t) (c : Document.t) :
  findOne (session_userId (Request.user req)) true = QueryDone (Some c) →
  findCurrentCart findOne newCart save req
  = ({| Request.user := Request.user req; Request.cart := Some c |},
     map (λ a, ArticleValidation (Document._id c) (articleId a))
       (filter (λ a, validated a = false) (articles (Document.fields c))),
     Next).
Proof.
  intros H. unfold findCurrentCart. rewrite H. by rewrite forEach_notify.
Qed.

Lemma findCurrentCart_found_witness :
  let c := {| Document._id := "cart-1";
              Document.fields :=
                {| userId := "u1"; orderId := None; Schema.enabled := true;
                   articles := [ {| articleId := "A"; quantity := 2; validated := false |};
                                 {| articleId := "B"; quantity := 1; validated := true |};
                                 {| articleId := "C"; quantity := 5; validated := false |} ] |} |} in
  let blank := {| Document._id := "cart-2";
                  Document.fields :=
                    {| userId := ""; orderId := None; Schema.enabled := true;
                       articles := [] |} |} in
  let req := {| Request.user := {| token := "Bearer 5f2a"; session_userId := "u1" |};
                Request.cart := None |} in
  storeOf [c] (session_userId (Request.user req)) true = QueryDone (Some c)
  ∧ findCurrentCart (storeOf [c]) blank (λ _, None) req
    = ({| Request.user := Request.user req; Request.cart := Some c |},
       [ArticleValidation "cart-1" "A"; ArticleValidation "cart-1" "C"],
       Next).
Proof.
  intros c blank req. split; [reflexivity|].
  apply (findCurrentCart_found (storeOf [c]) blank (λ _, None) req c). reflexivity.
Defined.

(** If [Cart.findOne] returns only documents that satisfy its filter,
    then whenever [findCurrentCart] calls [next()] the request holds a
    cart, and that cart belongs to the user of the session, whether it was
    found or has just been created; the session itself is untouched. *)
Theorem findCurrentCart_own_cart (findOne : string → bool → QueryResult)
    (newCart : Document.t) (save : Document.t → option DbError)
    (req req' : Request.t) (events : list Event) :
  (∀ uid flag c, findOne uid flag = QueryDone (Some c) →
                 userId (Document.fields c) = uid
                 ∧ Schema.enabled (Document.fields c) = flag) →
  findCurrentCart findOne newCart save req = (req', events, Next) →
  Request.user req' = Request.user req
  ∧ ∃ c, Request.cart req' = Some c
         ∧ userId (Document.fields c) = session_userId (Request.user req).
Proof.
  intros Hfilter. unfold findCurrentCart.
  destruct (findOne (session_userId (Request.user req)) true) as [err|[c|]] eqn:E.
  - discriminate.
  - intros [= <- _]. split; [done|]. exists c. split; [done|].
    by apply (Hfilter _ _ _ E).
  - destruct (save _); [discriminate|]. intros [= <- _]. split; [done|].
    by eexists.
Qed.

Lemma storeOf_filter (docs : list Document.t) (uid : string) (flag : bool)
    (c : Document.t) :
  storeOf docs uid flag = QueryDone (Some c) →
  userId (Document.fields c) = uid ∧ Schema.enabled (Document.fields c) = flag.
Proof.
  unfold storeOf. intros [= H].
  destruct (list_find _ docs) as [[i c']|] eqn:E; simpl in H; [|discriminate].
  injection H as ->. by apply list_find_Some in E as (_ & ? & _).
Qed.

Lemma findCurrentCart_own_cart_witness :
  let blank := {| Document._id := "cart-2";
                  Document.fields :=
                    {| userId := ""; orderId := None; Schema.enabled := true;
                       articles := [] |} |} in
  let req := {| Request.user := {| token := "Bearer 5f2a"; session_userId := "u1" |};
                Request.cart := None |} in
  findCurrentCart (storeOf []) blank (λ _, None) req
  = ({| Request.user := Request.user req;
        Request.cart := Some (setUserId blank "u1") |},
     [SaveCart (setUserId blank "u1")], Next)
  ∧ Request.user req = Request.user req
  ∧ ∃ c, Some (setUserId blank "u1") = Some c
         ∧ userId (Document.fields c) = "u1".
Proof.
  intros blank req. split; [reflexivity|].
  apply (findCurrentCart_own_cart (storeOf []) blank (λ _, None) req
           {| Request.user := Request.user req;
              Request.cart := Some (setUserId blank "u1") |}
           [SaveCart (setUserId blank "u1")]).
  - intros uid flag c. apply storeOf_filter.
  - reflexivity.
Defined.

(** ** [postOrder] *)

(** [postOrder] never consults the report: run on the request that
    [validateOrder] leaves, whatever that report says and however
    [validateOrder] ended, it marks the cart as disabled with the order id
    "orderID", keeps its user and lines, and, when the save succeeds,
    replies with that cart; the report stays on the request. *)
Theorem postOrder_after_validateOrder (restClient : RestClient)
    (save : ICart → option DbError) (req : IValidationResult) :
  let closed := {| userId := userId (cart req);
                   orderId := Some "orderID";
                   Schema.enabled := false;
                   articles := articles (cart req) |} in
  cart (fst (postOrder save (fst (validateOrder restClient req)))) = closed
  ∧ validation (fst (postOrder save (fst (validateOrder restClient req))))
    = validation (fst (validateOrder restClient req))
  ∧ snd (postOrder save (fst (validateOrder restClient req)))
    = match save closed with
      | Some err => handleError err
      | None => json_cart closed
      end.
Proof.
  intros closed. unfold postOrder.
  destruct (validateOrder_cases restClient req) as [-> | ->]; simpl;
    fold closed; by destruct (save closed).
Qed.

(** * The error handler of the auth service *)

Import Rest.

Lemma HasPrefix_iff (s prefix : string) :
  HasPrefix s prefix = true ↔ ∃ post, s = prefix +:+ post.
Proof.
  revert s. induction prefix as [|a prefix IH]; intros s; simpl.
  - split; [|done]. intros _. by exists s.
  - destruct s as [|b s]; simpl.
    + split; [discriminate|]. intros (post & H). discriminate.
    + destruct (Ascii.eqb a b) eqn:E.
      * apply Ascii.eqb_eq in E as ->. rewrite IH. split.
        -- intros (post & ->). by exists post.
        -- intros (post & [= ->]). by exists post.
      * apply Ascii.eqb_neq in E. split; [discriminate|].
        intros (post & [= <- _]). done.
Qed.

Lemma Contains_iff (s substr : string) :
  Contains s substr = true ↔ ∃ pre post, s = pre +:+ substr +:+ post.
Proof.
  induction s as [|b s IH]; simpl.
  - rewrite orb_false_r, HasPrefix_iff. split.
    + intros (post & H). by exists "", post.
    + intros ([|a pre] & post & H); [by exists post | discriminate].
  - rewrite orb_true_iff, IH, HasPrefix_iff. split.
    + intros [(post & H) | (pre & post & ->)].
      * by exists "", post.
      * by exists (String b pre), post.
    + intros ([|a pre] & post & H).
      * left. by exists post.
      * right. injection H as _ ->. by exists pre, post.
Qed.

Lemma fold_appendMessage (ToLower : string → string) (ve : list FieldError)
    (result : list pathMessage) :
  fold_left (appendMessage ToLower) ve result
  = (result ++ map (λ e, {| Path := ToLower (Field e); Message := Tag e |}) ve)%list.
Proof.
  revert result. induction ve as [|e ve IH]; intros result; simpl.
  - by rewrite app_nil_r.
  - rewrite IH. unfold appendMessage, push. by rewrite <- app_assoc.
Qed.

(** For validation errors [HandleError] writes one response, with status
    400, whose messages answer the entries one for one and in the order
    they were visited: the tag unchanged as message, the field name in
    lower case as path. *)
Theorem HandleError_validation (ToLower : string → string) (c : GinContext)
    (ve : list FieldError) :
  HandleError ToLower c (ValidationErrors ve)
  = (c ++ [ {| code := 400;
               obj := H_messages
                        (map (λ e, {| Path := ToLower (Field e); Message := Tag e |}) ve)
            |} ])%list.
Proof.
  simpl. unfold handleValidationError, JSON, push. by rewrite fold_appendMessage.
Qed.

(** For every value that is not handled by its own [Handle] method,
    [HandleError] writes exactly one response after those already
    written, with status 400 or 500; the status is 400 exactly for
    validation errors and for errors whose text contains "duplicate key
    error" somewhere, and in the latter case the body is the fixed
    "Already exist". *)
Theorem HandleError_status (ToLower : string → string) (c : GinContext) (err : Err) :
  (∀ Handle, err ≠ GinError Handle) →
  ∃ w,
    HandleError ToLower c err = (c ++ [w])%list
    ∧ (code w = 400 ∨ code w = 500)
    ∧ (code w = 400
       ↔ (∃ ve, err = ValidationErrors ve)
         ∨ (∃ pre post, err = SimpleError (pre +:+ "duplicate key error" +:+ post)))
    ∧ (∀ pre post, err = SimpleError (pre +:+ "duplicate key error" +:+ post) →
         obj w = H_error "Already exist").
Proof.
  intros Hgin. destruct err as [ve|Handle| |text|].
  - eexists. split; [reflexivity|]. simpl.
    split; [by left|]. split; [|done]. split; [|done]. intros _. left. by exists ve.
  - by destruct (Hgin Handle).
  - eexists. split; [done|]. simpl. split; [by right|].
    split; [|done]. split; [done|]. by intros [(? & ?) | (? & ? & ?)].
  - simpl. destruct (IsUniqueKeyError text) eqn:E.
    + eexists. split; [done|]. simpl. split; [by left|]. split; [|done].
      split; [|done]. intros _. right.
      apply Contains_iff in E as (pre & post & ->). by exists pre, post.
    + eexists. split; [done|]. simpl. split; [by right|]. split.
      * split; [done|]. intros [(? & ?) | (pre & post & [= ->])]; [done|].
        assert (IsUniqueKeyError (pre +:+ "duplicate key error" +:+ post) = true) as E'
          by (apply Contains_iff; by exists pre, post).
        congruence.
      * intros pre post [= ->].
        assert (IsUniqueKeyError (pre +:+ "duplicate key error" +:+ post) = true) as E'
          by (apply Contains_iff; by exists pre, post).
        congruence.
  - eexists. split; [done|]. simpl. split; [by right|].
    split; [|done]. split; [done|]. by intros [(? & ?) | (? & ? & ?)].
Qed.

Lemma HandleError_status_witness :
  let err := SimpleError "E11000 duplicate key error collection: auth.users" in
  (∀ Handle, err ≠ GinError Handle)
  ∧ ∃ w,
      HandleError (λ s, s) [] err = [w]
      ∧ (code w = 400 ∨ code w = 500)
      ∧ (code w = 400
         ↔ (∃ ve, err = ValidationErrors ve)
           ∨ (∃ pre post, err = SimpleError (pre +:+ "duplicate key error" +:+ post)))
      ∧ (∀ pre post, err = SimpleError (pre +:+ "duplicate key error" +:+ post) →
           obj w = H_error "Already exist").
Proof.
  intros err. split; [discriminate|].
  apply (HandleError_status (λ s, s) [] err). discriminate.
Defined.

(** ** [SignUp] *)

Lemma HandleError_one (ToLower : string → string) (c : GinContext) (err : Err) :
  (∀ Handle, err ≠ GinError Handle) →
  ∃ w, HandleError ToLower c err = (c ++ [w])%list ∧ (code w = 400 ∨ code w = 500).
Proof.
  intros Hgin. destruct err as [ve|Handle| |text|]; simpl.
  - eexists. split; [reflexivity | by left].
  - by destruct (Hgin Handle).
  - eexists. split; [reflexivity | by right].
  - destruct (IsUniqueKeyError text); eexists; (split; [reflexivity|]); simpl; auto.
  - eexists. split; [reflexivity | by right].
Qed.

(** When no error that occurs brings its own [Handle] method, [SignUp]
    writes exactly one response.  It is the status 200 with a token
    exactly when the body could be bound and [user.SignUp] returned that
    token; otherwise its status is 400 or 500.  [user.SignUp] is called
    once with the bound request, and not at all when binding failed. *)
Theorem SignUp_token {NewUserRequest : Type} (ToLower : string → string)
    (signUp : NewUserRequest → string + Err) (bound : NewUserRequest + Err)
    (c : GinContext) :
  (∀ err Handle, bound = inr err → err ≠ GinError Handle) →
  (∀ r err Handle, bound = inl r → signUp r = inr err → err ≠ GinError Handle) →
  ∃ w,
    fst (SignUp ToLower signUp bound c) = (c ++ [w])%list
    ∧ (∀ token, w = {| code := 200; obj := H_token token |}
                ↔ ∃ r, bound = inl r ∧ signUp r = inl token)
    ∧ ((¬ ∃ r token, bound = inl r ∧ signUp r = inl token) →
       code w = 400 ∨ code w = 500)
    ∧ snd (SignUp ToLower signUp bound c)
      = match bound with
        | inl r => [r]
        | inr _ => []
        end.
Proof.
  intros Hb Hs. unfold SignUp. destruct bound as [r|err].
  - destruct (signUp r) as [token|err] eqn:E.
    + eexists. split; [reflexivity|]. simpl. split; [|split; [|done]].
      * intros token'. split.
        -- intros [= ->]. by exists r.
        -- intros (r' & [= <-] & H). congruence.
      * intros H. destruct H. by exists r, token.
    + destruct (HandleError_one ToLower c err) as (w & Hw & Hc).
      { intros Handle. by apply (Hs r err Handle). }
      exists w. split; [done|]. simpl. split; [|split; [|done]].
      * intros token. split.
        -- intros ->. simpl in Hc. by destruct Hc.
        -- intros (r' & [= <-] & H). congruence.
      * done.
  - destruct (HandleError_one ToLower c err) as (w & Hw & Hc).
    { intros Handle. by apply (Hb err Handle). }
    exists w. split; [done|]. simpl. split; [|split; [|done]].
    + intros token. split.
      * intros ->. simpl in Hc. by destruct Hc.
      * by intros (r' & [=] & _).
    + done.
Qed.

Lemma SignUp_token_witness :
  let signUp := λ login : string,
    if bool_decide (login = "ana") then inr (SimpleError "duplicate key error")
    else inl ("token-for-" +:+ login) in
  let bound : string + Err := inl "luis" in
  (∀ err Handle, bound = inr err → err ≠ GinError Handle)
  ∧ (∀ r err Handle, bound = inl r → signUp r = inr err → err ≠ GinError Handle)
  ∧ ∃ w,
      fst (SignUp (λ s, s) signUp bound []) = [w]
      ∧ (∀ token, w = {| code := 200; obj := H_token token |}
                  ↔ ∃ r, bound = inl r ∧ signUp r = inl token)
      ∧ ((¬ ∃ r token, bound = inl r ∧ signUp r = inl token) →
         code w = 400 ∨ code w = 500)
      ∧ snd (SignUp (λ s, s) signUp bound []) = ["luis"].
Proof.
  intros signUp bound.
  assert (∀ r err Handle, bound = inl r → signUp r = inr err → err ≠ GinError Handle)
    as Hs.
  { intros r err Handle _. unfold signUp. case_bool_decide; intros [= <-]. discriminate. }
  split; [discriminate|]. split; [exact Hs|].
  apply (SignUp_token (λ s, s) signUp bound []); [discriminate | exact Hs].
Defined.
